(** * Tank level monitor: acquisition core of [tank_monitor.py]

    A shallow embedding of the polling loop, the register-to-gallons
    transform, the staleness test and the shutdown routine of
    [TankLevelGUI], with the properties of the specification stated
    over it.

    Levels are IEEE binary64 values, as in the Python source, carried by
    Rocq's primitive floats.  Instants are integers counting microseconds
    (the resolution of [datetime]); durations likewise.

    The polling thread and the GUI thread are interleaved at the grain of
    whole calls: an iteration of the loop, a call of [cleanup] and a save
    of the settings each run to their end before the next one starts. *)

From Stdlib Require Import ZArith List Bool Lia String.
From Stdlib Require Import Floats Uint63.
Import ListNotations.
Open Scope Z_scope.

(** ** Numbers *)

(** [float(n)] for a non-negative integer below [2^63]. *)
Definition Z2float (n : Z) : float := PrimFloat.of_uint63 (Uint63.of_Z n).

(** [num / 2^k] rounded to the nearest integer, ties to the even one. *)
Definition round_half_even (num : Z) (k : positive) : Z :=
  let q := Z.shiftr num (Zpos k) in
  let r := num - Z.shiftl q (Zpos k) in
  match r ?= Z.shiftl 1 (Z.pred (Zpos k)) with
  | Lt => q
  | Gt => q + 1
  | Eq => if Z.even q then q else q + 1
  end.

Definition two46 : float := Eval vm_compute in Z2float (2 ^ 46).

(** The number of hundredths nearest to the magnitude of a finite float
    [m * 2^e]. *)
Definition hundredths (m : positive) (e : Z) : Z :=
  match e with
  | Zneg k => round_half_even (100 * Zpos m) k
  | _ => 100 * Zpos m * 2 ^ e
  end.

(** Python's [round(x, 2)] on a float.  CPython rounds the exact binary
    value of [x] to two decimals, ties to even, and returns the double
    nearest to that decimal; NaN, infinities and zeros come back unchanged.
    From [2^46] on, doubles are at least [1/64] apart, so the nearest double
    to the rounded decimal is [x] itself. *)
Definition py_round2 (x : float) : float :=
  match Prim2SF x with
  | S754_finite s m e =>
      if (two46 <=? PrimFloat.abs x)%float then x
      else
        let q := (Z2float (hundredths m e) / 100)%float in
        if s then (- q)%float else q
  | _ => x
  end.

(** ** Configuration (lines 33-46) *)

Record capacity := { gallons : float; height : float }.

Definition cap_big_tank : capacity := {| gallons := 582000; height := (526 / 10)%float |}.
Definition cap_tank1_bio : capacity := {| gallons := 20000; height := 25 |}.
Definition cap_tank2_fleet : capacity := {| gallons := (1747868 / 100)%float; height := 31 |}.

(** [CAPACITIES], keyed by tank id. *)
Definition CAPACITIES : list (string * capacity) :=
  [ ("Big Tank"%string, cap_big_tank);
    ("Tank 1 - Bio"%string, cap_tank1_bio);
    ("Tank 2 - Fleet"%string, cap_tank2_fleet);
    ("Tank 3 - Fleet"%string, cap_tank2_fleet);
    ("Tank 4 - Bio"%string, cap_tank1_bio);
    ("Tank 5 - Bio"%string, cap_tank1_bio) ].

(** Durations in microseconds. *)
Definition MIN_POLL_INTERVAL : Z := 100000.
Definition DEFAULT_POLL_INTERVAL : Z := 60000000.
Definition stale_threshold : Z := 10000000.

(** The un-rounded level of lines 668-670: [(float(r) / 65535) * c]. *)
Definition raw_level (r : Z) (c : float) : float :=
  ((Z2float r / 65535) * c)%float.

(** The displayed level of lines 671-676. *)
Definition transform (r : Z) (c : float) : float := py_round2 (raw_level r c).

(** ** Exceptions and effects *)

(** The exceptions the modelled calls can raise; all of them derive from
    [Exception]. *)
Inductive exn :=
| ConnectionException
| ModbusException
| SqliteError
| TclError
| IndexError
| TimeoutExpired
| ValueError
| OverflowError
| OtherException.

Inductive result (A : Type) :=
| Ok (a : A)
| Raise (e : exn).
Arguments Ok {A} a.
Arguments Raise {A} e.

(** [except (ConnectionException, ModbusException)]. *)
Definition is_modbus_error (e : exn) : bool :=
  match e with
  | ConnectionException | ModbusException => true
  | _ => false
  end.

(** [except sqlite3.Error]. *)
Definition is_sqlite_error (e : exn) : bool :=
  match e with
  | SqliteError => true
  | _ => false
  end.

Inductive severity := WARNING | ERROR.

(** What the program does to the outside, in order.  [logging.info] calls
    are left out; warnings and errors are kept. *)
Inductive event :=
| Log (l : severity) (msg : string)
| Sleep (d : Z)            (* time.sleep(d) is called; the call may raise *)
| GuiUpdate                (* root.after(0, self.update_gui) *)
| Prompt                   (* simpledialog.askstring *)
| ShowError                (* messagebox.showerror *)
| AfterCancel              (* root.after_cancel *)
| SocketClose              (* client.close *)
| RootDestroy.             (* root.destroy *)

(** ** State *)

(** One entry of [self.tank_levels]. *)
Record tank := {
  id : string;
  level : float;
  tank_capacity : float;
  tank_height : float
}.

(** One row of [tank_readings]. *)
Record LogRecord := {
  timestamp : Z;
  big_tank_gallons : float;
  tank1_gallons : float;
  tank2_gallons : float
}.

(** The fields of [TankLevelGUI] the acquisition core reads or writes,
    with the rows of the database file and the effects so far. *)
Record state := {
  running : bool;
  last_update : option Z;
  cleaned_up : bool;
  poll_interval : Z;
  client : bool;                      (* [false]: [self.client] is [None] *)
  time_date_after_id : option Z;
  tank_levels : list tank;
  db : list LogRecord;
  trace : list event
}.

Definition set_running (b : bool) (s : state) : state :=
  {| running := b; last_update := last_update s; cleaned_up := cleaned_up s;
     poll_interval := poll_interval s; client := client s;
     time_date_after_id := time_date_after_id s; tank_levels := tank_levels s;
     db := db s; trace := trace s |}.

Definition set_last_update (t : option Z) (s : state) : state :=
  {| running := running s; last_update := t; cleaned_up := cleaned_up s;
     poll_interval := poll_interval s; client := client s;
     time_date_after_id := time_date_after_id s; tank_levels := tank_levels s;
     db := db s; trace := trace s |}.

Definition set_cleaned_up (b : bool) (s : state) : state :=
  {| running := running s; last_update := last_update s; cleaned_up := b;
     poll_interval := poll_interval s; client := client s;
     time_date_after_id := time_date_after_id s; tank_levels := tank_levels s;
     db := db s; trace := trace s |}.

Definition set_poll_interval (d : Z) (s : state) : state :=
  {| running := running s; last_update := last_update s; cleaned_up := cleaned_up s;
     poll_interval := d; client := client s;
     time_date_after_id := time_date_after_id s; tank_levels := tank_levels s;
     db := db s; trace := trace s |}.

Definition set_tank_levels (tl : list tank) (s : state) : state :=
  {| running := running s; last_update := last_update s; cleaned_up := cleaned_up s;
     poll_interval := poll_interval s; client := client s;
     time_date_after_id := time_date_after_id s; tank_levels := tl;
     db := db s; trace := trace s |}.

Definition set_db (rows : list LogRecord) (s : state) : state :=
  {| running := running s; last_update := last_update s; cleaned_up := cleaned_up s;
     poll_interval := poll_interval s; client := client s;
     time_date_after_id := time_date_after_id s; tank_levels := tank_levels s;
     db := rows; trace := trace s |}.

Definition emit (e : event) (s : state) : state :=
  {| running := running s; last_update := last_update s; cleaned_up := cleaned_up s;
     poll_interval := poll_interval s; client := client s;
     time_date_after_id := time_date_after_id s; tank_levels := tank_levels s;
     db := db s; trace := trace s ++ [e] |}.

Definition log (l : severity) (msg : string) (s : state) : state :=
  emit (Log l msg) s.

(** ** Start-up ([__init__], lines 141-203) *)

Definition new_tank (name : string) (c : capacity) : tank :=
  {| id := name; level := 0; tank_capacity := gallons c; tank_height := height c |}.

Definition initial_tank_levels : list tank :=
  map (fun kc => new_tank (fst kc) (snd kc)) CAPACITIES.

(** What start-up finds: whether [ModbusTcpClient] could be built, the
    rows of an existing [tank_levels.db] ([None]: no file), and how
    [os.remove] and [setup_database] went. *)
Record init_env := {
  client_built : bool;
  existing_db : option (list LogRecord);
  remove_result : result unit;
  setup_result : result unit
}.

(** Lines 171-179: an existing database file is removed; when removal
    fails the error is logged and the file is kept. *)
Definition init_database (env : init_env) : list LogRecord * list event :=
  match existing_db env with
  | None => ([], [])
  | Some rows =>
      match remove_result env with
      | Ok _ => ([], [])
      | Raise _ => (rows, [Log ERROR "Failed to delete existing database file"])
      end
  end.

(** [load_config] returns a [poll_interval] equal to
    [DEFAULT_POLL_INTERVAL] on each of its paths; line 158 clamps it. *)
Definition init (env : init_env) : result state :=
  let (rows, evs) := init_database env in
  match setup_result env with
  | Raise e => Raise e
  | Ok _ =>
      Ok {| running := true; last_update := None; cleaned_up := false;
            poll_interval := Z.max DEFAULT_POLL_INTERVAL MIN_POLL_INTERVAL;
            client := client_built env;
            time_date_after_id := Some 0;
            tank_levels := initial_tank_levels;
            db := rows;
            trace := (if client_built env then []
                      else [Log ERROR "Failed to initialize Modbus client"]) ++ evs |}
  end.

(** ** One poll cycle *)

(** What [read_holding_registers] returns. *)
Inductive response :=
| ErrorResponse                     (* [tags.isError()] holds *)
| Registers (regs : list Z).

(** What the outside world answers during one iteration of the loop. *)
Record cycle_env := {
  t_start : Z;                      (* time.time(), line 610 *)
  ping_result : result Z;           (* the try of lines 586-596: the return code *)
  socket_open : bool;               (* client.is_socket_open *)
  connect_result : result bool;     (* client.connect *)
  read_result : result response;    (* client.read_holding_registers(0, 3) *)
  now_update : Z;                   (* datetime.now(), line 677 *)
  now_log : Z;                      (* datetime.now(), line 688 *)
  insert_result : result unit;      (* the sqlite block, lines 684-693 *)
  after_result : result unit;       (* root.after, line 632 *)
  t_end : Z;                        (* time.time(), line 635 *)
  t_mark : Z                        (* time.time(), line 639 *)
}.

(** Whether [ping_device] answers [True] (line 591). *)
Definition ping_ok (env : cycle_env) : bool :=
  match ping_result env with
  | Ok rc => rc =? 0
  | Raise _ => false
  end.

(** [regs[i]]. *)
Definition register (regs : list Z) (i : nat) : result Z :=
  match nth_error regs i with
  | Some r => Ok r
  | None => Raise IndexError
  end.

(** Lines 668-670: the three un-rounded levels. *)
Definition read_levels (regs : list Z) : result (float * float * float) :=
  match register regs 0 with
  | Raise e => Raise e
  | Ok r0 =>
      match register regs 1 with
      | Raise e => Raise e
      | Ok r1 =>
          match register regs 2 with
          | Raise e => Raise e
          | Ok r2 =>
              Ok (raw_level r0 (gallons cap_big_tank),
                  raw_level r1 (gallons cap_tank1_bio),
                  raw_level r2 (gallons cap_tank2_fleet))
          end
      end
  end.

Definition with_level (v : float) (t : tank) : tank :=
  {| id := id t; level := v; tank_capacity := tank_capacity t;
     tank_height := tank_height t |}.

Fixpoint replace_nth (i : nat) (t : tank) (tl : list tank) : list tank :=
  match tl, i with
  | [], _ => []
  | _ :: rest, O => t :: rest
  | x :: rest, S j => x :: replace_nth j t rest
  end.

(** [tank_levels[i]['level'] = v]; an index out of range raises, the
    list untouched. *)
Definition set_level (i : nat) (v : float) (tl : list tank) : result (list tank) :=
  match nth_error tl i with
  | Some t => Ok (replace_nth i (with_level v t) tl)
  | None => Raise IndexError
  end.

(** The assignments of lines 671-676, in order; the ones done before a
    failing one stay. *)
Fixpoint store_levels (writes : list (nat * float)) (tl : list tank)
  : result unit * list tank :=
  match writes with
  | [] => (Ok tt, tl)
  | (i, v) :: rest =>
      match set_level i v tl with
      | Ok tl' => store_levels rest tl'
      | Raise e => (Raise e, tl)
      end
  end.

Definition level_writes (level1 level2 level3 : float) : list (nat * float) :=
  [ (0%nat, py_round2 level1);
    (1%nat, py_round2 level2);
    (2%nat, py_round2 level3);
    (3%nat, py_round2 level3);      (* mirrored from Tank 2 *)
    (4%nat, py_round2 level2);      (* mirrored from Tank 1 *)
    (5%nat, py_round2 level2) ].    (* mirrored from Tank 1 *)

(** Lines 682-696: the row holds the un-rounded levels; [sqlite3.Error]
    is caught and logged, anything else goes up. *)
Definition log_to_database (env : cycle_env) (level1 level2 level3 : float)
  (s : state) : result unit * state :=
  match insert_result env with
  | Ok _ =>
      (Ok tt,
       set_db (db s ++ [ {| timestamp := now_log env; big_tank_gallons := level1;
                            tank1_gallons := level2; tank2_gallons := level3 |} ]) s)
  | Raise e =>
      if is_sqlite_error e
      then (Ok tt, log ERROR "Failed to log tank levels to database" s)
      else (Raise e, s)
  end.

(** The body of the [try] of [fetch_tank_levels], lines 650-696. *)
Definition fetch_try (env : cycle_env) (s : state) : result unit * state :=
  match (if socket_open env then Ok true else connect_result env) with
  | Raise e => (Raise e, s)
  | Ok false => (Ok tt, log ERROR "Failed to connect" s)
  | Ok true =>
      match read_result env with
      | Raise e => (Raise e, s)
      | Ok ErrorResponse => (Ok tt, log ERROR "Modbus read error" s)
      | Ok (Registers regs) =>
          match read_levels regs with
          | Raise e => (Raise e, s)
          | Ok (level1, level2, level3) =>
              match store_levels (level_writes level1 level2 level3) (tank_levels s) with
              | (Raise e, tl) => (Raise e, set_tank_levels tl s)
              | (Ok _, tl) =>
                  log_to_database env level1 level2 level3
                    (set_last_update (Some (now_update env)) (set_tank_levels tl s))
              end
          end
      end
  end.

(** [fetch_tank_levels], with its two handlers (lines 698-701). *)
Definition fetch_tank_levels (env : cycle_env) (s : state) : state :=
  match fetch_try env s with
  | (Ok _, s') => s'
  | (Raise e, s') =>
      if is_modbus_error e
      then log ERROR "Modbus error" s'
      else log ERROR "Unexpected error in fetch_tank_levels" s'
  end.

(** [ping_device], lines 584-602: every path that answers [False] logs
    a line of its own first.  An exception is whatever the [try] raised, in
    [subprocess.run] or in decoding its output. *)
Definition ping_device (env : cycle_env) (s : state) : bool * state :=
  match ping_result env with
  | Ok rc =>
      if rc =? 0 then (true, s)
      else (false, log WARNING "Ping failed" s)
  | Raise TimeoutExpired => (false, log ERROR "Ping timed out" s)
  | Raise _ => (false, log ERROR "Ping failed" s)
  end.

(** The longest sleep CPython accepts: the nanoseconds must fit a signed
    64-bit integer. *)
Definition max_sleep : Z := 9223372036854775.

(** Whether [time.sleep(d)] raises: [ValueError] on a negative length,
    [OverflowError] on one past [max_sleep]. *)
Definition sleep_raises (d : Z) : bool := (d <? 0) || (max_sleep <? d).

Definition sleep_error (d : Z) : exn :=
  if d <? 0 then ValueError else OverflowError.

(** [time.sleep(d)]. *)
Definition sleep (d : Z) (s : state) : result unit * state :=
  (if sleep_raises d then Raise (sleep_error d) else Ok tt, emit (Sleep d) s).

(** The body of the [try] of [modbus_polling], lines 610-641: how it
    ends, the value of [last_poll_time] and the state.  The sleep of
    line 614 lasts the positive remainder of the minimum interval; it could
    be refused only after the clock has stepped back by centuries, which is
    left out.  The sleeps of lines 620 and 641 take whatever
    [self.poll_interval] holds. *)
Definition poll_try (env : cycle_env) (last_poll_time : Z) (s : state)
  : result unit * Z * state :=
  let elapsed := t_start env - last_poll_time in
  let s1 :=
    if elapsed <? MIN_POLL_INTERVAL
    then emit (Sleep (MIN_POLL_INTERVAL - elapsed)) (log WARNING "Polling too fast" s)
    else s in
  let (reachable, s2) := ping_device env s1 in
  if negb reachable then
    let (slept, s3) :=
      sleep (poll_interval s2) (log WARNING "Device unreachable, skipping fetch" s2) in
    (slept, last_poll_time, s3)
  else
    let s3 := fetch_tank_levels env s2 in
    let published :=
      if running s3 then
        match after_result env with
        | Ok _ => (Ok tt, emit GuiUpdate s3)
        | Raise e => (Raise e, s3)
        end
      else (Ok tt, s3) in
    match published with
    | (Raise e, s4) => (Raise e, last_poll_time, s4)
    | (Ok _, s4) =>
        let s5 :=
          if poll_interval s4 <? t_end env - t_start env
          then log WARNING "Polling took longer than interval" s4
          else s4 in
        let (slept, s6) := sleep (poll_interval s5) s5 in
        (slept, t_mark env, s6)
    end.

(** One iteration of the [while] of [modbus_polling], with the handler
    of lines 643-645.  The sleep of line 645 stands outside any [try]: when
    it raises, the exception leaves the loop and the thread ends. *)
Definition poll_iteration (env : cycle_env) (last_poll_time : Z) (s : state)
  : result unit * Z * state :=
  match poll_try env last_poll_time s with
  | (Ok _, t, s') => (Ok tt, t, s')
  | (Raise _, t, s') =>
      let (slept, s'') := sleep (poll_interval s') (log ERROR "Polling loop error" s') in
      (slept, t, s'')
  end.

(** What an iteration leaves behind, whether or not the thread goes on:
    [last_poll_time] and the state. *)
Definition poll_cycle (env : cycle_env) (last_poll_time : Z) (s : state)
  : Z * state :=
  let '(_, t, s') := poll_iteration env last_poll_time s in (t, s').

(** ** Staleness ([update_gui], lines 706-720) *)

(** The test of line 714. *)
Definition is_stale (s : state) (now : Z) : bool :=
  match last_update s with
  | Some t => stale_threshold <? now - t
  | None => false
  end.

Definition fill_colors : list (string * string) :=
  [ ("Big Tank", "#32CD32"); ("Tank 1 - Bio", "#FFA500");
    ("Tank 2 - Fleet", "#FFFF00"); ("Tank 3 - Fleet", "#FFFF00");
    ("Tank 4 - Bio", "#FFA500"); ("Tank 5 - Bio", "#FFA500") ]%string.

Fixpoint lookup (k : string) (l : list (string * string)) : option string :=
  match l with
  | [] => None
  | (k', v) :: rest => if String.eqb k k' then Some v else lookup k rest
  end.

(** The fill given to each tank's bar, by tank id ([None]: [KeyError]). *)
Definition bar_fills (s : state) (now : Z) : list (string * option string) :=
  map (fun t => (id t, if is_stale s now then Some "gray"%string
                       else lookup (id t) fill_colors))
      (tank_levels s).

(** ** Shutdown ([cleanup], lines 755-807) *)

(** What [cleanup] meets: whether the root window still answers (a
    [TclError] from [winfo_exists] or from the dialog is [false]), what
    the operator typed ([None]: Cancel), and how the Tk and socket calls
    of the teardown go. *)
Record cleanup_env := {
  root_alive : bool;
  exit_code : option string;
  after_cancel_ok : bool;
  socket_open_at_exit : bool;
  destroy_ok : bool
}.

Definition exit_token : string := "12345".

(** Lines 785-807. *)
Definition release (env : cleanup_env) (s : state) : state :=
  let s1 := set_running false (set_cleaned_up true s) in
  let s2 :=
    match time_date_after_id s1 with
    | Some _ =>
        if after_cancel_ok env then emit AfterCancel s1
        else log WARNING "Failed to cancel update_time_date after call" (emit AfterCancel s1)
    | None => s1
    end in
  let s3 :=
    if client s2 && socket_open_at_exit env then emit SocketClose s2 else s2 in
  if destroy_ok env then emit RootDestroy s3
  else log WARNING "Root window already destroyed" (emit RootDestroy s3).

Definition cleanup (env : cleanup_env) (s : state) : state :=
  if cleaned_up s then s
  else if root_alive env then
    let s1 := emit Prompt s in
    match exit_code env with
    | None => s1
    | Some code =>
        if String.eqb code exit_token then release env s1
        else emit ShowError (log WARNING "Incorrect exit code entered" s1)
    end
  else release env s.

(** ** Settings ([SettingsWindow.save], lines 125-138) *)

(** [Some d]: the entry parses to the number [d]; [None]: [float] raises
    [ValueError].  Line 129 is the only test, so a number of any size is
    stored.  The entries [inf] and [nan] parse too and pass that test (no
    comparison with a NaN holds); [time.sleep] refuses them as it refuses
    an oversized number, and they are given no value of their own here. *)
Definition save (new_interval : option Z) (s : state) : state :=
  match new_interval with
  | Some d =>
      if d <? MIN_POLL_INTERVAL then log ERROR "Invalid input" (emit ShowError s)
      else set_poll_interval d s
  | None => log ERROR "Invalid input" (emit ShowError s)
  end.

(** ** The running system *)

(** The polling thread: inside its [while], past it, or ended by an
    exception that left [modbus_polling]. *)
Inductive thread_state :=
| Polling (last_poll_time : Z)
| Exited
| Died.

(** [iterations] counts the loop bodies begun; it is not a field of the
    program and only serves the statements. *)
Record system := {
  thread : thread_state;
  iterations : nat;
  app : state
}.

(** What happens next: the polling thread tests [self.running] and runs
    one iteration, or the GUI thread runs [cleanup] or saves settings. *)
Inductive action :=
| Iterate (env : cycle_env)
| Cleanup (env : cleanup_env)
| Save (new_interval : option Z).

Definition step (w : system) (a : action) : system :=
  match a with
  | Iterate env =>
      match thread w with
      | Polling last =>
          if running (app w) then
            match poll_iteration env last (app w) with
            | (Ok _, last', s') =>
                {| thread := Polling last'; iterations := S (iterations w); app := s' |}
            | (Raise _, _, s') =>
                {| thread := Died; iterations := S (iterations w); app := s' |}
            end
          else {| thread := Exited; iterations := iterations w; app := app w |}
      | Exited | Died => w
      end
  | Cleanup env =>
      {| thread := thread w; iterations := iterations w; app := cleanup env (app w) |}
  | Save d =>
      {| thread := thread w; iterations := iterations w; app := save d (app w) |}
  end.

Definition run (sched : list action) (w : system) : system :=
  fold_left step sched w.


(** ** Vocabulary of the statements *)

(** The events added between [s] and a later [s']. *)
Definition events_since (s s' : state) : list event :=
  skipn (List.length (trace s)) (trace s').

Inductive stage := Connect | Read | Transform.

(** Where a fetch stops before it has touched any level, if it does. *)
Definition early_failure (env : cycle_env) : option stage :=
  match (if socket_open env then Ok true else connect_result env) with
  | Ok true =>
      match read_result env with
      | Ok (Registers regs) =>
          match read_levels regs with
          | Ok _ => None
          | Raise _ => Some Transform
          end
      | _ => Some Read
      end
  | _ => Some Connect
  end.

(** The three registers of a cycle that got through probe, connect and
    read. *)
Definition readings (env : cycle_env) : option (Z * Z * Z) :=
  if ping_ok env then
    match (if socket_open env then Ok true else connect_result env) with
    | Ok true =>
        match read_result env with
        | Ok (Registers (r0 :: r1 :: r2 :: _)) => Some (r0, r1, r2)
        | _ => None
        end
    | _ => None
    end
  else None.

Definition level_at (i : nat) (s : state) : option float :=
  option_map level (nth_error (tank_levels s) i).

Definition is_log (e : event) : bool :=
  match e with
  | Log _ _ => true
  | _ => false
  end.

(** A fetch in which some step fails: connect, read, transform, store
    or persist. *)
Definition fetch_fails (env : cycle_env) (s : state) : bool :=
  match early_failure env with
  | Some _ => true
  | None =>
      match fst (fetch_try env s), insert_result env with
      | Ok _, Ok _ => false
      | _, _ => true
      end
  end.

(** A cycle in which some step fails: the probe, a step of the fetch,
    the hand-over to the GUI thread, or the sleep of the poll interval. *)
Definition cycle_fails (env : cycle_env) (s : state) : bool :=
  negb (ping_ok env)
  || fetch_fails env s
  || (running s && match after_result env with Raise _ => true | Ok _ => false end)
  || sleep_raises (poll_interval s).

(** [s] with [evs] appended to its trace and nothing else changed. *)
Definition extend (evs : list event) (s : state) : state :=
  {| running := running s; last_update := last_update s; cleaned_up := cleaned_up s;
     poll_interval := poll_interval s; client := client s;
     time_date_after_id := time_date_after_id s; tank_levels := tank_levels s;
     db := db s; trace := trace s ++ evs |}.

(** The levels a cycle displays for registers [r0], [r1], [r2]. *)
Definition displayed_levels (r0 r1 r2 : Z) : list float :=
  [ transform r0 (gallons cap_big_tank);
    transform r1 (gallons cap_tank1_bio);
    transform r2 (gallons cap_tank2_fleet);
    transform r2 (gallons cap_tank2_fleet);
    transform r1 (gallons cap_tank1_bio);
    transform r1 (gallons cap_tank1_bio) ].

(** The row a cycle persists for registers [r0], [r1], [r2]. *)
Definition persisted_row (t : Z) (r0 r1 r2 : Z) : LogRecord :=
  {| timestamp := t;
     big_tank_gallons := raw_level r0 (gallons cap_big_tank);
     tank1_gallons := raw_level r1 (gallons cap_tank1_bio);
     tank2_gallons := raw_level r2 (gallons cap_tank2_fleet) |}.

(** ** Configuration file ([load_config], lines 64-97) *)

(** A value stored under a key of the file's top-level object. *)
Inductive json :=
| JNull
| JBool (b : bool)
| JInt (n : Z)
| JFloat (x : float)
| JString (str : string)
| JNested.                          (* an array or an object *)

(** [d.get(k)] on a dict kept as an association list. *)
Fixpoint dict_get (k : string) (d : list (string * json)) : option json :=
  match d with
  | [] => None
  | (k', v) :: rest => if String.eqb k k' then Some v else dict_get k rest
  end.

(** [d[k] = v]: the value is replaced where the key stands, or the pair
    is added at the end. *)
Fixpoint dict_set (k : string) (v : json) (d : list (string * json))
  : list (string * json) :=
  match d with
  | [] => [(k, v)]
  | (k', v') :: rest =>
      if String.eqb k k' then (k', v) :: rest else (k', v') :: dict_set k v rest
  end.

(** [DEFAULT_POLL_INTERVAL] as the file holds it, in seconds. *)
Definition default_interval_seconds : Z := 60.

Definition default_config : list (string * json) :=
  [ ("adam_ip", JString "192.168.1.235");
    ("poll_interval", JInt default_interval_seconds);
    ("unit_id", JInt 1) ]%string.

(** [v == DEFAULT_POLL_INTERVAL] for what [config.get] returned. *)
Definition is_default_interval (v : option json) : bool :=
  match v with
  | Some (JInt n) => n =? default_interval_seconds
  | Some (JFloat x) => (x =? Z2float default_interval_seconds)%float
  | _ => false
  end.

(** [config.json]: absent, present but not readable as JSON, holding a
    JSON value that is not an object, or holding an object. *)
Inductive config_file :=
| Missing
| Garbled
| NotAnObject
| Holds (d : list (string * json)).

(** How the file operations of one call go.  A write that fails leaves
    the file as it was. *)
Record config_io := {
  create_ok : bool;                 (* writing the default file, lines 72-73 *)
  open_ok : bool;                   (* opening the file for reading, line 81 *)
  rewrite_ok : bool                 (* writing the corrected file, lines 89-90 *)
}.

(** Lines 80-97.  A value that is not a dict has no [get], and a dict
    without the key fails in the log call of line 86: both end in the
    handler of line 95. *)
Definition load_existing (io : config_io) (f : config_file)
  : list (string * json) * config_file * list event :=
  let failed := (default_config, f, [Log ERROR "Failed to load config"]) in
  if open_ok io then
    match f with
    | Holds d =>
        if is_default_interval (dict_get "poll_interval" d) then (d, f, [])
        else
          match dict_get "poll_interval" d with
          | None => failed
          | Some _ =>
              let d' := dict_set "poll_interval" (JInt default_interval_seconds) d in
              if rewrite_ok io then (d', Holds d', [])
              else (d', f, [Log ERROR "Failed to update config.json"])
          end
    | _ => failed
    end
  else failed.

(** [load_config]: the configuration returned, the file afterwards and
    what was logged. *)
Definition load_config (io : config_io) (f : config_file)
  : list (string * json) * config_file * list event :=
  match f with
  | Missing =>
      if create_ok io then load_existing io (Holds default_config)
      else (default_config, Missing,
            [Log ERROR "Failed to create default config.json"])
  | _ => load_existing io f
  end.

(** The three parts of what [load_config] gives. *)
Definition loaded (r : list (string * json) * config_file * list event)
  : list (string * json) := fst (fst r).
Definition file_after (r : list (string * json) * config_file * list event)
  : config_file := snd (fst r).
Definition logged (r : list (string * json) * config_file * list event)
  : list event := snd r.

(** ** Starting the polling thread (lines 513-523) *)

(** The thread is started only when the client was built.  A thread
    that was never started takes no turn, like one past its loop. *)
Definition start_polling (t0 : Z) (s : state) : system :=
  if client s then {| thread := Polling t0; iterations := 0; app := s |}
  else {| thread := Exited; iterations := 0;
          app := log WARNING "Modbus client not initialized; skipping polling thread" s |}.

(** ** More vocabulary *)

Definition event_eqb (a b : event) : bool :=
  match a, b with
  | GuiUpdate, GuiUpdate => true
  | Prompt, Prompt => true
  | ShowError, ShowError => true
  | AfterCancel, AfterCancel => true
  | SocketClose, SocketClose => true
  | RootDestroy, RootDestroy => true
  | Sleep d, Sleep d' => d =? d'
  | Log WARNING m, Log WARNING m' => String.eqb m m'
  | Log ERROR m, Log ERROR m' => String.eqb m m'
  | _, _ => false
  end.

(** How many times [e] occurs in [evs]. *)
Definition occurrences (e : event) (evs : list event) : nat :=
  List.length (filter (event_eqb e) evs).

Definition is_error (e : event) : bool :=
  match e with
  | Log ERROR _ => true
  | _ => false
  end.

(** The tank set of [__init__]: six tanks with the ids, capacities and
    heights of [CAPACITIES]. *)
Definition same_tanks (tl : list tank) : Prop :=
  map id tl = map id initial_tank_levels /\
  map tank_capacity tl = map tank_capacity initial_tank_levels /\
  map tank_height tl = map tank_height initial_tank_levels.

(** Whether this call of [cleanup] goes through to the teardown. *)
Definition authorised (env : cleanup_env) : bool :=
  negb (root_alive env)
  || match exit_code env with
     | Some code => String.eqb code exit_token
     | None => false
     end.

(** What an iteration does before the probe (lines 611-614). *)
Definition throttle_events (env : cycle_env) (last_poll_time : Z) : list event :=
  let elapsed := t_start env - last_poll_time in
  if elapsed <? MIN_POLL_INTERVAL
  then [Log WARNING "Polling too fast"; Sleep (MIN_POLL_INTERVAL - elapsed)]
  else [].

(** What a fetch logs. *)
Definition fetch_events (env : cycle_env) (s : state) : list event :=
  events_since s (fetch_tank_levels env s).

(** What a failed probe logs (lines 595, 598, 601). *)
Definition ping_events (env : cycle_env) : list event :=
  match ping_result env with
  | Ok rc => if rc =? 0 then [] else [Log WARNING "Ping failed"]
  | Raise TimeoutExpired => [Log ERROR "Ping timed out"]
  | Raise _ => [Log ERROR "Ping failed"]
  end.

(** What follows a sleep of the poll interval inside the [try]: nothing
    when the call returns; the handler's error line and its own call of
    [time.sleep] when the call raised (lines 643-645). *)
Definition rescue_events (s : state) : list event :=
  if sleep_raises (poll_interval s)
  then [Log ERROR "Polling loop error"; Sleep (poll_interval s)]
  else [].

(** What an iteration does after the fetch (lines 629-645). *)
Definition closing_events (env : cycle_env) (s : state) : list event :=
  let overrun :=
    if poll_interval s <? t_end env - t_start env
    then [Log WARNING "Polling took longer than interval"]
    else [] in
  if running s then
    match after_result env with
    | Ok _ => GuiUpdate :: overrun ++ Sleep (poll_interval s) :: rescue_events s
    | Raise _ => [Log ERROR "Polling loop error"; Sleep (poll_interval s)]
    end
  else overrun ++ Sleep (poll_interval s) :: rescue_events s.

(** What the teardown of [cleanup] does, in order (lines 789-807). *)
Definition teardown_events (env : cleanup_env) (s : state) : list event :=
  match time_date_after_id s with
  | Some _ =>
      AfterCancel ::
      (if after_cancel_ok env then []
       else [Log WARNING "Failed to cancel update_time_date after call"])
  | None => []
  end
  ++ (if client s && socket_open_at_exit env then [SocketClose] else [])
  ++ RootDestroy ::
     (if destroy_ok env then [] else [Log WARNING "Root window already destroyed"]).

(** What one call of [cleanup] does, in order. *)
Definition cleanup_events (env : cleanup_env) (s : state) : list event :=
  if cleaned_up s then []
  else
    (if root_alive env then [Prompt] else [])
    ++ (if authorised env then teardown_events env s
        else match exit_code env with
             | Some _ => [Log WARNING "Incorrect exit code entered"; ShowError]
             | None => []
             end).

(** The polling thread will not run another iteration. *)
Definition quiet (w : system) : Prop :=
  (forall t, thread w <> Polling t) \/ running (app w) = false.

(** ** Drawing ([add_scale], lines 572-582; [update_gui], lines 738-743) *)

(** [min(a, b)] and [max(a, b)] as Python computes them: the second
    argument is taken only when it compares strictly below (above) the
    first, so a NaN in second place is never taken. *)
Definition py_min (a b : float) : float := if (b <? a)%float then b else a.
Definition py_max (a b : float) : float := if (a <? b)%float then b else a.

(** [int(x)]: truncation toward zero; raises on NaN and on infinities. *)
Definition py_int (x : float) : result Z :=
  match Prim2SF x with
  | S754_zero _ => Ok 0
  | S754_finite s m e =>
      let q := match e with
               | Zneg k => Z.shiftr (Zpos m) (Zpos k)
               | _ => Z.shiftl (Zpos m) e
               end in
      Ok (if s then - q else q)
  | _ => Raise OtherException
  end.

(** What is drawn on a canvas. *)
Inductive drawing :=
| Line (x0 y0 x1 y1 : float) (width : Z)
| Text (x y : float) (label : Z).

(** The body of the loop of [add_scale] for one foot mark. *)
Definition tick (canvas_height : Z) (pixels_per_foot : float) (ft : Z)
  : list drawing :=
  let y := (Z2float canvas_height - Z2float ft * pixels_per_foot)%float in
  let y_adjusted := py_max 5 (py_min (Z2float (canvas_height - 5)) y) in
  if ft mod 5 =? 0
  then [Line 0 y_adjusted 10 y_adjusted 2; Text 12 y_adjusted ft]
  else [Line 0 y_adjusted 5 y_adjusted 1].

(** [range(0, n)]. *)
Definition py_range (n : Z) : list Z := map Z.of_nat (seq 0 (Z.to_nat n)).

(** [add_scale], for a canvas height of at least 5 pixels.  A zero
    height makes the division raise, a NaN or infinite one makes [int]
    raise. *)
Definition add_scale (tank_height : float) (canvas_height : Z)
  : result (list drawing) :=
  if (tank_height =? 0)%float then Raise OtherException
  else
    let pixels_per_foot := (Z2float canvas_height / tank_height)%float in
    match py_int tank_height with
    | Raise e => Raise e
    | Ok n => Ok (flat_map (tick canvas_height pixels_per_foot) (py_range (n + 1)))
    end.

(** Line 743: the fill percentage handed to the canvas. *)
Definition fill_percent (percent_full : float) : float :=
  py_min (py_max (percent_full * 100) 0) 100.

(** The vertical coordinates a drawing uses. *)
Definition ys (d : drawing) : list float :=
  match d with
  | Line _ y0 _ y1 _ => [y0; y1]
  | Text _ y _ => [y]
  end.

Definition label_of (d : drawing) : option Z :=
  match d with
  | Text _ _ n => Some n
  | Line _ _ _ _ _ => None
  end.

Definition between (lo hi y : float) : bool := ((lo <=? y) && (y <=? hi))%float.

Definition is_line (d : drawing) : bool :=
  match d with
  | Line _ _ _ _ _ => true
  | Text _ _ _ => false
  end.

(** ** The transform against exact arithmetic *)

(** The measured tanks, each with its capacity in hundredths of a gallon
    as [CAPACITIES] writes it: 582000, 20000 and 17478.68 gallons. *)
Definition measured : list (capacity * Z) :=
  [ (cap_big_tank, 58200000); (cap_tank1_bio, 2000000); (cap_tank2_fleet, 1747868) ].

(** Whether the level computed for register [r] and a capacity [c] of
    [caph] hundredths is the quotient [n / 100] of a count [n] of
    hundredths with [|n - r * caph / 65535| <= 1/2]. *)
Definition level_check (caph : Z) (c : float) (r : Z) : bool :=
  match Prim2SF (raw_level r c) with
  | S754_zero false => r =? 0
  | S754_finite false m (Zneg k) =>
      negb (two46 <=? PrimFloat.abs (raw_level r c))%float
      && (2 * Z.abs (65535 * hundredths m (Zneg k) - r * caph) <=? 65535)
  | _ => false
  end.

(** [f] holds of the [2^n] integers from [base * 2^n] on. *)
Fixpoint all_below (n : nat) (f : Z -> bool) (base : Z) : bool :=
  match n with
  | O => f base
  | S k => if all_below k f (2 * base) then all_below k f (2 * base + 1) else false
  end.

(** ** Sample runs *)

(** The state start-up leaves when the client was built and no database
    file existed. *)
Definition started : state :=
  {| running := true; last_update := None; cleaned_up := false;
     poll_interval := DEFAULT_POLL_INTERVAL; client := true;
     time_date_after_id := Some 0; tank_levels := initial_tank_levels;
     db := []; trace := [] |}.

(** A cycle starting at [t] in which everything works and the device
    answers [regs]. *)
Definition good_cycle (t : Z) (regs : list Z) : cycle_env :=
  {| t_start := t; ping_result := Ok 0; socket_open := false;
     connect_result := Ok true; read_result := Ok (Registers regs);
     now_update := t; now_log := t; insert_result := Ok tt;
     after_result := Ok tt; t_end := t; t_mark := t |}.

(** A cycle starting at [t] in which the device answers the ping and
    refuses the connection. *)
Definition refused_cycle (t : Z) : cycle_env :=
  {| t_start := t; ping_result := Ok 0; socket_open := false;
     connect_result := Ok false; read_result := Raise ConnectionException;
     now_update := t; now_log := t; insert_result := Ok tt;
     after_result := Ok tt; t_end := t; t_mark := t |}.

(** An operator who types [code] into the exit dialog of a live window. *)
Definition typed (code : option string) : cleanup_env :=
  {| root_alive := true; exit_code := code; after_cancel_ok := true;
     socket_open_at_exit := true; destroy_ok := true |}.

(** The exit hook, after the window is gone. *)
Definition at_exit : cleanup_env :=
  {| root_alive := false; exit_code := None; after_cancel_ok := false;
     socket_open_at_exit := true; destroy_ok := false |}.

Definition old_row : LogRecord :=
  {| timestamp := 0; big_tank_gallons := 1; tank1_gallons := 2; tank2_gallons := 3 |}.

(** A start-up that finds a database file holding [old_row]. *)
Definition restart : init_env :=
  {| client_built := true; existing_db := Some [old_row];
     remove_result := Ok tt; setup_result := Ok tt |}.

(** Ten thousand million seconds, typed as [1e10] into the settings
    dialog. *)
Definition oversized_interval : Z := 10000000000000000.

(** A cycle in which the probe fails. *)
Definition unreachable_cycle (t : Z) : cycle_env :=
  {| t_start := t; ping_result := Ok 1; socket_open := false;
     connect_result := Ok false; read_result := Raise ConnectionException;
     now_update := t; now_log := t; insert_result := Ok tt;
     after_result := Ok tt; t_end := t; t_mark := t |}.

(** A cycle in which everything works but the insert. *)
Definition locked_db_cycle (t : Z) (regs : list Z) : cycle_env :=
  {| t_start := t; ping_result := Ok 0; socket_open := true;
     connect_result := Ok true; read_result := Ok (Registers regs);
     now_update := t; now_log := t; insert_result := Raise SqliteError;
     after_result := Ok tt; t_end := t; t_mark := t |}.

(** A start-up with nothing on disk and a client that could be built. *)
Definition first_start : init_env :=
  {| client_built := true; existing_db := None;
     remove_result := Ok tt; setup_result := Ok tt |}.

(** A start-up in which [ModbusTcpClient] could not be built. *)
Definition no_client_start : init_env :=
  {| client_built := false; existing_db := None;
     remove_result := Ok tt; setup_result := Ok tt |}.

Definition all_ok : config_io :=
  {| create_ok := true; open_ok := true; rewrite_ok := true |}.

(** A configuration file asking for a five second interval. *)
Definition five_seconds : config_file :=
  Holds [ ("adam_ip", JString "10.0.0.7"); ("poll_interval", JInt 5);
          ("unit_id", JInt 3) ]%string.

(** A configuration file without the [poll_interval] key. *)
Definition no_interval_key : config_file :=
  Holds [ ("adam_ip", JString "10.0.0.7"); ("unit_id", JInt 3) ]%string.

Arguments py_round2 : simpl never.
Arguments raw_level : simpl never.
Arguments transform : simpl never.

(** * Properties *)

(** ** The rounding model on known values *)

Example transform_big_half :
  transform 32768 (gallons cap_big_tank) = (29100444 / 100)%float.
Proof. vm_compute. reflexivity. Qed.

Example py_round2_ties_even :
  py_round2 (125 / 1000)%float = (12 / 100)%float /\
  py_round2 (375 / 1000)%float = (38 / 100)%float.
Proof. split; vm_compute; reflexivity. Qed.

(** ** Traces only grow *)

Lemma emit_extend (e : event) (s : state) : emit e s = extend [e] s.
Proof. reflexivity. Qed.

Lemma extend_nil (s : state) : extend [] s = s.
Proof. destruct s; unfold extend; simpl; rewrite app_nil_r; reflexivity. Qed.

Lemma extend_extend (a b : list event) (s : state) :
  extend b (extend a s) = extend (a ++ b) s.
Proof. unfold extend; simpl; rewrite app_assoc; reflexivity. Qed.

Lemma events_since_app (s s' : state) (evs : list event) :
  trace s' = trace s ++ evs -> events_since s s' = evs.
Proof.
  intros H. unfold events_since. rewrite H. clear H.
  induction (trace s) as [|e l IH]; simpl; [reflexivity | exact IH].
Qed.

Lemma events_since_refl (s : state) : events_since s s = [].
Proof. apply events_since_app. symmetry. apply app_nil_r. Qed.

Lemma events_since_extend (evs : list event) (s : state) :
  events_since s (extend evs s) = evs.
Proof. apply events_since_app. reflexivity. Qed.

(** ** What a fetch leaves alone *)

Ltac split_fetch env :=
  unfold fetch_tank_levels, fetch_try, log_to_database;
  destruct (socket_open env); [| destruct (connect_result env) as [[|]|?]];
  (destruct (read_result env) as [[|?regs]|?]; [| destruct (read_levels regs) as [[[? ?] ?]|?] |]);
  repeat match goal with
         | |- context [store_levels ?w ?tl] => destruct (store_levels w tl) as [[|?] ?]
         | |- context [insert_result env] => destruct (insert_result env)
         | |- context [is_sqlite_error ?e] => destruct (is_sqlite_error e)
         | |- context [is_modbus_error ?e] => destruct (is_modbus_error e)
         end.

Lemma fetch_frame (env : cycle_env) (s : state) :
  let s' := fetch_tank_levels env s in
  running s' = running s /\ cleaned_up s' = cleaned_up s /\
  poll_interval s' = poll_interval s /\ client s' = client s /\
  time_date_after_id s' = time_date_after_id s /\
  (exists evs, trace s' = trace s ++ evs /\ forallb is_log evs = true) /\
  (exists rows, db s' = db s ++ rows).
Proof.
  split_fetch env; simpl;
    repeat split;
    try (exists []; rewrite app_nil_r; split; reflexivity);
    try (eexists; split; reflexivity);
    try (exists []; rewrite app_nil_r; reflexivity);
    try (eexists; reflexivity).
Qed.

Lemma fetch_early_failure (env : cycle_env) (s : state) (st : stage) :
  early_failure env = Some st ->
  exists msg, fetch_tank_levels env s = extend [Log ERROR msg] s.
Proof.
  unfold early_failure, fetch_tank_levels, fetch_try.
  destruct (if socket_open env then Ok true else connect_result env) as [[|]|e].
  - destruct (read_result env) as [[|regs]|e].
    + intros _. eexists. reflexivity.
    + destruct (read_levels regs) as [[[l1 l2] l3]|e]; [discriminate|].
      intros _. destruct (is_modbus_error e); eexists; reflexivity.
    + intros _. destruct (is_modbus_error e); eexists; reflexivity.
  - intros _. eexists. reflexivity.
  - intros _. destruct (is_modbus_error e); eexists; reflexivity.
Qed.

(** ** The shape of one iteration *)

Lemma ping_device_extend (env : cycle_env) (s : state) :
  ping_device env s = (ping_ok env, extend (ping_events env) s).
Proof.
  unfold ping_device, ping_ok, ping_events, log.
  destruct (ping_result env) as [rc|e].
  - destruct (rc =? 0); [rewrite extend_nil | rewrite emit_extend]; reflexivity.
  - destruct e; rewrite emit_extend; reflexivity.
Qed.

Lemma ping_ok_events (env : cycle_env) : ping_ok env = true -> ping_events env = [].
Proof.
  unfold ping_ok, ping_events. destruct (ping_result env) as [rc|e]; [|discriminate].
  intros ->. reflexivity.
Qed.

Lemma throttle_extend (env : cycle_env) (last : Z) (s : state) :
  (if t_start env - last <? MIN_POLL_INTERVAL
   then emit (Sleep (MIN_POLL_INTERVAL - (t_start env - last)))
          (log WARNING "Polling too fast" s)
   else s) = extend (throttle_events env last) s.
Proof.
  unfold throttle_events. destruct (t_start env - last <? MIN_POLL_INTERVAL).
  - unfold log. rewrite !emit_extend, extend_extend. reflexivity.
  - symmetry. apply extend_nil.
Qed.

Lemma poll_iteration_reachable (env : cycle_env) (last : Z) (s : state) :
  ping_ok env = true ->
  poll_iteration env last s =
    (if sleep_raises (poll_interval s) then Raise (sleep_error (poll_interval s))
     else Ok tt,
     if running s
     then match after_result env with Ok _ => t_mark env | Raise _ => last end
     else t_mark env,
     extend (closing_events env s)
       (fetch_tank_levels env (extend (throttle_events env last) s))).
Proof.
  intros Hping. unfold poll_iteration, poll_try. cbv zeta.
  rewrite throttle_extend, ping_device_extend, Hping, (ping_ok_events env Hping),
    extend_nil.
  simpl negb. cbv iota.
  destruct (fetch_frame env (extend (throttle_events env last) s)) as (Hr & _ & Hp & _).
  simpl in Hr, Hp.
  set (s3 := fetch_tank_levels env (extend (throttle_events env last) s)) in *.
  unfold closing_events, rescue_events, sleep, log. rewrite Hr.
  destruct (running s); [destruct (after_result env) as [[]|e]|];
    cbv iota beta; simpl poll_interval; rewrite ?Hp;
    destruct (poll_interval s <? t_end env - t_start env);
    simpl poll_interval; rewrite ?Hp;
    destruct (sleep_raises (poll_interval s)) eqn:E;
    cbv iota beta; simpl poll_interval; rewrite ?Hp, ?E;
    rewrite ?emit_extend, ?extend_extend; reflexivity.
Qed.

Lemma poll_iteration_unreachable (env : cycle_env) (last : Z) (s : state) :
  ping_ok env = false ->
  poll_iteration env last s =
    (if sleep_raises (poll_interval s) then Raise (sleep_error (poll_interval s))
     else Ok tt,
     last,
     extend (throttle_events env last ++ ping_events env ++
             Log WARNING "Device unreachable, skipping fetch"
             :: Sleep (poll_interval s) :: rescue_events s) s).
Proof.
  intros Hping. unfold poll_iteration, poll_try. cbv zeta.
  rewrite throttle_extend, ping_device_extend, Hping.
  simpl negb. cbv iota.
  unfold rescue_events, sleep, log. simpl poll_interval.
  destruct (sleep_raises (poll_interval s)) eqn:E;
    cbv iota beta; simpl poll_interval; rewrite ?E;
    rewrite ?emit_extend, ?extend_extend, <- ?app_assoc; reflexivity.
Qed.

Lemma poll_cycle_reachable (env : cycle_env) (last : Z) (s : state) :
  ping_ok env = true ->
  exists pre post,
    snd (poll_cycle env last s) = extend post (fetch_tank_levels env (extend pre s)) /\
    (running s = true -> after_result env = Ok tt -> In GuiUpdate post) /\
    (running s = true -> (exists e, after_result env = Raise e) ->
     existsb is_log post = true).
Proof.
  intros Hping. unfold poll_cycle. rewrite (poll_iteration_reachable env last s Hping).
  exists (throttle_events env last), (closing_events env s).
  split; [reflexivity|]. unfold closing_events. split.
  - intros -> ->. left. reflexivity.
  - intros -> [e ->]. reflexivity.
Qed.

Lemma poll_cycle_unreachable (env : cycle_env) (last : Z) (s : state) :
  ping_ok env = false ->
  exists evs, poll_cycle env last s = (last, extend evs s).
Proof.
  intros Hping. unfold poll_cycle. rewrite (poll_iteration_unreachable env last s Hping).
  eexists. reflexivity.
Qed.

(** ** A fetch that reaches the device *)

Lemma readings_inv (env : cycle_env) (r0 r1 r2 : Z) :
  readings env = Some (r0, r1, r2) ->
  ping_ok env = true /\
  (if socket_open env then Ok true else connect_result env) = Ok true /\
  exists rest, read_result env = Ok (Registers (r0 :: r1 :: r2 :: rest)).
Proof.
  unfold readings. destruct (ping_ok env); [|discriminate].
  destruct (if socket_open env then Ok true else connect_result env) as [[|]|e];
    try discriminate.
  destruct (read_result env) as [[|regs]|e]; try discriminate.
  destruct regs as [|a [|b [|c rest]]]; try discriminate.
  intros H. inversion H; subst. repeat split. exists rest. reflexivity.
Qed.

Lemma readings_no_early_failure (env : cycle_env) (r : Z * Z * Z) :
  readings env = Some r -> early_failure env = None.
Proof.
  destruct r as [[r0 r1] r2]. intros H.
  destruct (readings_inv _ _ _ _ H) as (_ & Hc & rest & Hr).
  unfold early_failure. rewrite Hc, Hr. reflexivity.
Qed.

Lemma fetch_success (env : cycle_env) (s : state) (r0 r1 r2 : Z) :
  readings env = Some (r0, r1, r2) ->
  List.length (tank_levels s) = 6%nat ->
  let s' := fetch_tank_levels env s in
  map level (tank_levels s') = displayed_levels r0 r1 r2 /\
  map id (tank_levels s') = map id (tank_levels s) /\
  last_update s' = Some (now_update env) /\
  (insert_result env = Ok tt ->
   db s' = db s ++ [persisted_row (now_log env) r0 r1 r2]) /\
  ((exists e, insert_result env = Raise e) -> db s' = db s).
Proof.
  intros H Hlen.
  destruct (readings_inv _ _ _ _ H) as (_ & Hc & rest & Hr).
  destruct (tank_levels s) as [|a0 [|a1 [|a2 [|a3 [|a4 [|a5 [|]]]]]]] eqn:Htl;
    try discriminate Hlen.
  unfold fetch_tank_levels, fetch_try. rewrite Hc, Hr. simpl read_levels.
  cbv iota beta. rewrite Htl.
  unfold level_writes, store_levels, set_level. simpl nth_error. cbv iota beta.
  simpl replace_nth. unfold log_to_database.
  destruct (insert_result env) as [[]|e].
  - simpl. repeat split.
    intros [e He]. discriminate He.
  - destruct e; simpl;
      repeat match goal with |- _ /\ _ => split end;
      try reflexivity; intros He; discriminate He.
Qed.

Lemma cycle_success (env : cycle_env) (last : Z) (s : state) (r0 r1 r2 : Z) :
  readings env = Some (r0, r1, r2) ->
  List.length (tank_levels s) = 6%nat ->
  let s' := snd (poll_cycle env last s) in
  map level (tank_levels s') = displayed_levels r0 r1 r2 /\
  map id (tank_levels s') = map id (tank_levels s) /\
  last_update s' = Some (now_update env) /\
  (insert_result env = Ok tt ->
   db s' = db s ++ [persisted_row (now_log env) r0 r1 r2]) /\
  ((exists e, insert_result env = Raise e) -> db s' = db s).
Proof.
  intros H Hlen.
  destruct (readings_inv _ _ _ _ H) as (Hping & _).
  destruct (poll_cycle_reachable env last s Hping) as (pre & post & Hs & _ & _).
  cbv zeta. rewrite Hs.
  exact (fetch_success env (extend pre s) r0 r1 r2 H Hlen).
Qed.

Lemma level_at_map (i : nat) (s : state) :
  level_at i s = nth_error (map level (tank_levels s)) i.
Proof. unfold level_at. symmetry. apply nth_error_map. Qed.

(** ** Rounding to hundredths *)

Lemma round_half_even_nearest (num : Z) (k : positive) :
  Z.abs (round_half_even num k * 2 ^ Zpos k - num) * 2 <= 2 ^ Zpos k.
Proof.
  unfold round_half_even.
  rewrite Z.shiftr_div_pow2, !Z.shiftl_mul_pow2 by lia.
  assert (Hd : 0 < 2 ^ Z.pred (Zpos k)) by (apply Z.pow_pos_nonneg; lia).
  assert (HD : 2 ^ Zpos k = 2 * 2 ^ Z.pred (Zpos k)).
  { rewrite <- Z.pow_succ_r by lia. f_equal. lia. }
  set (d := 2 ^ Z.pred (Zpos k)) in *. rewrite HD.
  pose proof (Z.div_mod num (2 * d) ltac:(lia)) as Hdm.
  pose proof (Z.mod_pos_bound num (2 * d) ltac:(lia)) as Hm.
  set (q := num / (2 * d)) in *. set (r := num mod (2 * d)) in *.
  replace (num - q * (2 * d)) with r by lia.
  rewrite Z.mul_1_l.
  destruct (Z.compare_spec r d); [destruct (Z.even q) | |]; lia.
Qed.

Lemma py_round2_hundredths (x : float) (s : bool) (m k : positive) :
  Prim2SF x = S754_finite s m (Zneg k) ->
  (two46 <=? PrimFloat.abs x)%float = false ->
  exists n,
    py_round2 x = (if s then - (Z2float n / 100) else Z2float n / 100)%float /\
    Z.abs (n * 2 ^ Zpos k - 100 * Zpos m) * 2 <= 2 ^ Zpos k.
Proof.
  intros Hx Hsmall. exists (hundredths m (Zneg k)). split.
  - unfold py_round2. rewrite Hx, Hsmall. reflexivity.
  - apply round_half_even_nearest.
Qed.

(** ** Failed cycles *)

Lemma early_failure_cycle (env : cycle_env) (last : Z) (s : state) (st : stage) :
  ping_ok env = true ->
  early_failure env = Some st ->
  exists evs,
    snd (poll_cycle env last s) = extend evs s /\
    (running s = true -> after_result env = Ok tt -> In GuiUpdate evs).
Proof.
  intros Hping Hfail.
  destruct (poll_cycle_reachable env last s Hping) as (pre & post & Hs & Hgui & _).
  destruct (fetch_early_failure env (extend pre s) st Hfail) as (msg & Hf).
  exists (pre ++ [Log ERROR msg] ++ post). split.
  - rewrite Hs, Hf, !extend_extend, <- ?app_assoc. reflexivity.
  - intros Hrun Hafter.
    apply in_or_app. right. apply in_or_app. right. exact (Hgui Hrun Hafter).
Qed.

(** C1 (amended).  A cycle that passes the probe and then fails at the
    connect, read or transform step inserts no row and leaves the six
    levels and the last-update instant as they were; while the program is
    running and [root.after] succeeds it still hands one GUI update to the
    consumer, which redraws the levels of the previous cycle. *)
Theorem failed_fetch_keeps_state_and_publishes :
  forall (env : cycle_env) (last : Z) (s : state) (st : stage),
    ping_ok env = true ->
    early_failure env = Some st ->
    let s' := snd (poll_cycle env last s) in
    tank_levels s' = tank_levels s /\
    last_update s' = last_update s /\
    db s' = db s /\
    (running s = true -> after_result env = Ok tt ->
     In GuiUpdate (events_since s s')).
Proof.
  intros env last s st Hping Hfail.
  destruct (early_failure_cycle env last s st Hping Hfail) as (evs & Hs & Hgui).
  cbv zeta. rewrite Hs. repeat split.
  rewrite events_since_extend. exact Hgui.
Qed.

Lemma failed_fetch_keeps_state_and_publishes_witness :
  ping_ok (refused_cycle 60000000) = true /\
  early_failure (refused_cycle 60000000) = Some Connect /\
  (let s' := snd (poll_cycle (refused_cycle 60000000) 0 started) in
   tank_levels s' = tank_levels started /\
   last_update s' = last_update started /\
   db s' = db started /\
   (running started = true -> after_result (refused_cycle 60000000) = Ok tt ->
    In GuiUpdate (events_since started s'))).
Proof.
  split; [reflexivity|]. split; [reflexivity|].
  apply (failed_fetch_keeps_state_and_publishes
           (refused_cycle 60000000) 0 started Connect); reflexivity.
Defined.

(** C1, as stated, fails: the cycle below fails at the connect step and
    a GUI update is handed to the consumer all the same. *)
Lemma refused_cycle_still_publishes :
  early_failure (refused_cycle 60000000) = Some Connect /\
  events_since started (snd (poll_cycle (refused_cycle 60000000) 0 started)) =
    [Log ERROR "Failed to connect"; GuiUpdate; Sleep DEFAULT_POLL_INTERVAL].
Proof. split; vm_compute; reflexivity. Qed.

(** ** The transform *)

Lemma all_below_sound (n : nat) (f : Z -> bool) (base : Z) :
  all_below n f base = true ->
  forall r, base * 2 ^ Z.of_nat n <= r < (base + 1) * 2 ^ Z.of_nat n -> f r = true.
Proof.
  revert base. induction n as [|k IH]; intros base H r Hr.
  - simpl in *. replace r with base by lia. exact H.
  - change (all_below (S k) f base)
      with (if all_below k f (2 * base) then all_below k f (2 * base + 1) else false) in H.
    destruct (all_below k f (2 * base)) eqn:L; [|discriminate H].
    rewrite Nat2Z.inj_succ, Z.pow_succ_r in Hr by lia.
    assert (HP : 0 < 2 ^ Z.of_nat k) by (apply Z.pow_pos_nonneg; lia).
    set (P := 2 ^ Z.of_nat k) in *.
    destruct (Z_lt_le_dec r ((2 * base + 1) * P)) as [Hlt|Hge].
    + apply (IH (2 * base) L). fold P. lia.
    + apply (IH (2 * base + 1) H). fold P. lia.
Qed.

Lemma level_check_sound (caph : Z) (c : float) (r : Z) :
  level_check caph c r = true ->
  exists n : Z,
    transform r c = (Z2float n / 100)%float /\
    2 * Z.abs (65535 * n - r * caph) <= 65535.
Proof.
  unfold level_check, transform, py_round2.
  destruct (Prim2SF (raw_level r c)) as [sg|sg| |sg m e] eqn:E; try discriminate.
  - destruct sg; cbv beta iota; [discriminate|].
    intros H. apply Z.eqb_eq in H. subst r.
    exists 0. split; [|simpl; lia].
    apply FloatAxioms.Prim2SF_inj. rewrite E. reflexivity.
  - destruct sg; cbv beta iota; [discriminate|].
    destruct e as [|e|k]; cbv beta iota; try discriminate.
    intros H. apply andb_true_iff in H. destruct H as [Hsmall Hnear].
    apply negb_true_iff in Hsmall. apply Z.leb_le in Hnear.
    rewrite Hsmall. exists (hundredths m (Zneg k)). split; [reflexivity | exact Hnear].
Qed.

Lemma sweep_big_tank :
  all_below 16 (level_check 58200000 (gallons cap_big_tank)) 0 = true.
Proof. vm_compute. reflexivity. Qed.

Lemma sweep_tank1_bio :
  all_below 16 (level_check 2000000 (gallons cap_tank1_bio)) 0 = true.
Proof. vm_compute. reflexivity. Qed.

Lemma sweep_tank2_fleet :
  all_below 16 (level_check 1747868 (gallons cap_tank2_fleet)) 0 = true.
Proof. vm_compute. reflexivity. Qed.

Lemma measured_checked (c : capacity) (caph : Z) :
  In (c, caph) measured ->
  all_below 16 (level_check caph (gallons c)) 0 = true /\
  gallons c = (Z2float caph / 100)%float.
Proof.
  intros [E|[E|[E|[]]]]; inversion E; subst c caph.
  - split; [exact sweep_big_tank | vm_compute; reflexivity].
  - split; [exact sweep_tank1_bio | vm_compute; reflexivity].
  - split; [exact sweep_tank2_fleet | vm_compute; reflexivity].
Qed.

(** ** Multiplying by one and by zero in binary64 *)

Lemma bounded_canonical (m : positive) (e : Z) :
  bounded prec emax m e = true ->
  fexp prec emax (Zpos (digits2_pos m) + e) = e /\ e <= emax - prec.
Proof.
  unfold bounded, canonical_mantissa. intros H.
  apply andb_true_iff in H. destruct H as [H1 H2].
  apply Z.eqb_eq in H1. apply Z.leb_le in H2. split; assumption.
Qed.

Lemma mul_two52 (m : positive) :
  (4503599627370496 * m)%positive = Pos.iter xO m 52.
Proof. reflexivity. Qed.

Lemma digits_shifted (m : positive) :
  Zpos (digits2_pos (Pos.iter xO m 52)) = Zpos (digits2_pos m) + 52.
Proof. cbn [Pos.iter digits2_pos]. lia. Qed.

Lemma shr_shifted (m : positive) :
  iter_pos shr_1 52 {| shr_m := Zpos (Pos.iter xO m 52); shr_r := false; shr_s := false |}
  = {| shr_m := Zpos m; shr_r := false; shr_s := false |}.
Proof. reflexivity. Qed.

(** The product of [2^52 * 2^-52] and a binary64 number [m * 2^e] rounds
    to that number. *)
Lemma round_exact_product (sg : bool) (m : positive) (e : Z) :
  bounded prec emax m e = true ->
  binary_round_aux prec emax sg (Zpos (4503599627370496 * m)) (-52 + e) loc_Exact
  = S754_finite sg m e.
Proof.
  intros Hb. destruct (bounded_canonical m e Hb) as [Hc He].
  rewrite mul_two52.
  unfold binary_round_aux, shr_fexp.
  unfold Zdigits2 at 1. rewrite digits_shifted.
  replace (Z.pos (digits2_pos m) + 52 + (-52 + e)) with (Zpos (digits2_pos m) + e) by lia.
  rewrite Hc.
  replace (e - (-52 + e)) with 52 by lia.
  change (shr_record_of_loc (Z.pos (Pos.iter xO m 52)) loc_Exact)
    with {| shr_m := Zpos (Pos.iter xO m 52); shr_r := false; shr_s := false |}.
  unfold shr at 1. rewrite !shr_shifted.
  cbn [shr_m loc_of_shr_record round_nearest_even Zdigits2 shr_record_of_loc].
  replace (-52 + e + 52) with e by lia.
  rewrite Hc.
  replace (e - e) with 0 by lia. cbn [shr shr_m].
  rewrite (proj2 (Z.leb_le _ _) He). reflexivity.
Qed.

Lemma float_mul_1_l (c : float) : (1 * c)%float = c.
Proof.
  apply FloatAxioms.Prim2SF_inj. rewrite FloatAxioms.mul_spec.
  change (Prim2SF 1) with (S754_finite false 4503599627370496 (-52)).
  pose proof (Prim2SF_valid c) as V.
  destruct (Prim2SF c) as [sg|sg| |sg m e]; try reflexivity.
  simpl in V. unfold SF64mul, SFmul. simpl xorb.
  apply round_exact_product. exact V.
Qed.

Lemma float_mul_0_l (c : float) :
  (0 <? c)%float = true -> (c <? infinity)%float = true -> (0 * c)%float = 0%float.
Proof.
  rewrite !FloatAxioms.ltb_spec. intros H0 Hinf.
  apply FloatAxioms.Prim2SF_inj. rewrite FloatAxioms.mul_spec.
  change (Prim2SF 0) with (S754_zero false) in *.
  change (Prim2SF infinity) with (S754_infinity false) in *.
  destruct (Prim2SF c) as [sg|sg| |sg m e]; try discriminate H0.
  - destruct sg; discriminate.
  - destruct sg; [discriminate H0 | reflexivity].
Qed.

(** C2.  After a cycle that read registers [r0], [r1], [r2], the levels
    of the three measured tanks are the transform of their register.  For
    each capacity of [CAPACITIES], of [caph] hundredths of a gallon, and
    every register [r] from 0 to 65535, the transform is the double nearest
    to [n / 100] for the integer [n] nearest to the exact
    [100 * (r / 65535 * capacity)]: a two-decimal number within half a
    hundredth of the exact product, 0 for register 0 and the capacity for
    register 65535.  For every finite capacity [c > 0], register 0 gives 0
    and register 65535 gives [c] rounded to two decimals. *)
Theorem transform_is_scaled_register :
  (forall (env : cycle_env) (last : Z) (s : state) (r0 r1 r2 : Z),
      readings env = Some (r0, r1, r2) ->
      List.length (tank_levels s) = 6%nat ->
      let s' := snd (poll_cycle env last s) in
      level_at 0 s' = Some (transform r0 (gallons cap_big_tank)) /\
      level_at 1 s' = Some (transform r1 (gallons cap_tank1_bio)) /\
      level_at 2 s' = Some (transform r2 (gallons cap_tank2_fleet))) /\
  (forall (c : capacity) (caph r : Z),
      In (c, caph) measured ->
      0 <= r <= 65535 ->
      gallons c = (Z2float caph / 100)%float /\
      exists n : Z,
        transform r (gallons c) = (Z2float n / 100)%float /\
        2 * Z.abs (65535 * n - r * caph) <= 65535 /\
        (r = 0 -> n = 0) /\
        (r = 65535 -> n = caph)) /\
  (forall c : float,
      (0 <? c)%float = true ->
      (c <? infinity)%float = true ->
      transform 0 c = 0%float /\ transform 65535 c = py_round2 c).
Proof.
  split; [|split].
  - intros env last s r0 r1 r2 H Hlen.
    destruct (cycle_success env last s r0 r1 r2 H Hlen) as (Hl & _).
    cbv zeta. rewrite !level_at_map, Hl. repeat split.
  - intros c caph r Hin Hr.
    destruct (measured_checked c caph Hin) as (Hsweep & Hcap). split; [exact Hcap|].
    assert (Hcheck : level_check caph (gallons c) r = true).
    { apply (all_below_sound 16 (level_check caph (gallons c)) 0 Hsweep r).
      change (2 ^ Z.of_nat 16) with 65536. lia. }
    destruct (level_check_sound caph (gallons c) r Hcheck) as (n & Hn & Hnear).
    exists n. split; [exact Hn|]. split; [exact Hnear|]. split; intros ->; lia.
  - intros c Hpos Hfin. unfold transform, raw_level.
    change (Z2float 0 / 65535)%float with 0%float.
    change (Z2float 65535 / 65535)%float with 1%float.
    rewrite (float_mul_0_l c Hpos Hfin), float_mul_1_l.
    split; reflexivity.
Qed.

Lemma transform_is_scaled_register_witness :
  In (cap_tank2_fleet, 1747868) measured /\
  0 <= 32768 <= 65535 /\
  exists n : Z,
    transform 32768 (gallons cap_tank2_fleet) = (Z2float n / 100)%float /\
    2 * Z.abs (65535 * n - 32768 * 1747868) <= 65535.
Proof.
  assert (Hin : In (cap_tank2_fleet, 1747868) measured)
    by (right; right; left; reflexivity).
  assert (Hr : 0 <= 32768 <= 65535) by lia.
  split; [exact Hin|]. split; [exact Hr|].
  destruct (proj1 (proj2 transform_is_scaled_register)
              cap_tank2_fleet 1747868 32768 Hin Hr) as (_ & n & Hn & Hnear & _).
  exists n. split; assumption.
Defined.

(** C3.  After a cycle that read the registers, Tank 3 shows the level
    of Tank 2 and Tanks 4 and 5 show the level of Tank 1, each the value
    computed in this very cycle. *)
Theorem mirrored_tanks_equal_sources :
  forall (env : cycle_env) (last : Z) (s : state) (r0 r1 r2 : Z),
    readings env = Some (r0, r1, r2) ->
    List.length (tank_levels s) = 6%nat ->
    let s' := snd (poll_cycle env last s) in
    level_at 1 s' = Some (transform r1 (gallons cap_tank1_bio)) /\
    level_at 2 s' = Some (transform r2 (gallons cap_tank2_fleet)) /\
    level_at 3 s' = level_at 2 s' /\
    level_at 4 s' = level_at 1 s' /\
    level_at 5 s' = level_at 1 s' /\
    map id (tank_levels s') = map id (tank_levels s).
Proof.
  intros env last s r0 r1 r2 H Hlen.
  destruct (cycle_success env last s r0 r1 r2 H Hlen) as (Hl & Hid & _).
  cbv zeta. rewrite !level_at_map, Hl. repeat split. exact Hid.
Qed.

Lemma mirrored_tanks_equal_sources_witness :
  readings (good_cycle 0 [32768; 10000; 5000]) = Some (32768, 10000, 5000) /\
  List.length (tank_levels started) = 6%nat /\
  (let s' := snd (poll_cycle (good_cycle 0 [32768; 10000; 5000]) 0 started) in
   level_at 1 s' = Some (transform 10000 (gallons cap_tank1_bio)) /\
   level_at 2 s' = Some (transform 5000 (gallons cap_tank2_fleet)) /\
   level_at 3 s' = level_at 2 s' /\
   level_at 4 s' = level_at 1 s' /\
   level_at 5 s' = level_at 1 s' /\
   map id (tank_levels s') = map id (tank_levels started)).
Proof.
  split; [reflexivity|]. split; [reflexivity|].
  apply (mirrored_tanks_equal_sources
           (good_cycle 0 [32768; 10000; 5000]) 0 started 32768 10000 5000);
    reflexivity.
Defined.

(** C10.  A cycle that read the registers and whose insert succeeded
    appends one row holding the three un-rounded levels, while each
    displayed level is that row's value rounded to two decimals.  The two
    need not be the same double (register 32768 of the big tank), and the
    displayed one is the double quotient [n / 100] for a count [n] of
    hundredths within half a hundredth of the persisted value. *)
Theorem persisted_levels_are_unrounded :
  forall (env : cycle_env) (last : Z) (s : state) (r0 r1 r2 : Z),
    readings env = Some (r0, r1, r2) ->
    List.length (tank_levels s) = 6%nat ->
    insert_result env = Ok tt ->
    let s' := snd (poll_cycle env last s) in
    (exists row,
        db s' = db s ++ [row] /\
        big_tank_gallons row = raw_level r0 (gallons cap_big_tank) /\
        tank1_gallons row = raw_level r1 (gallons cap_tank1_bio) /\
        tank2_gallons row = raw_level r2 (gallons cap_tank2_fleet) /\
        level_at 0 s' = Some (py_round2 (big_tank_gallons row)) /\
        level_at 1 s' = Some (py_round2 (tank1_gallons row)) /\
        level_at 2 s' = Some (py_round2 (tank2_gallons row))) /\
    raw_level 32768 (gallons cap_big_tank)
      <> py_round2 (raw_level 32768 (gallons cap_big_tank)) /\
    (forall (x : float) (sg : bool) (m k : positive),
        Prim2SF x = S754_finite sg m (Zneg k) ->
        (two46 <=? PrimFloat.abs x)%float = false ->
        exists n,
          py_round2 x = (if sg then - (Z2float n / 100) else Z2float n / 100)%float /\
          Z.abs (n * 2 ^ Zpos k - 100 * Zpos m) * 2 <= 2 ^ Zpos k).
Proof.
  intros env last s r0 r1 r2 H Hlen Hins.
  destruct (cycle_success env last s r0 r1 r2 H Hlen) as (Hl & _ & _ & Hdb & _).
  cbv zeta. split; [|split].
  - exists (persisted_row (now_log env) r0 r1 r2).
    rewrite !level_at_map, Hl, (Hdb Hins). repeat split.
  - intros E.
    pose proof (f_equal (fun v => PrimFloat.eqb v (raw_level 32768 (gallons cap_big_tank))) E)
      as Hb.
    vm_compute in Hb. discriminate Hb.
  - exact py_round2_hundredths.
Qed.

Lemma persisted_levels_are_unrounded_witness :
  readings (good_cycle 0 [32768; 10000; 5000]) = Some (32768, 10000, 5000) /\
  List.length (tank_levels started) = 6%nat /\
  insert_result (good_cycle 0 [32768; 10000; 5000]) = Ok tt /\
  exists row,
    db (snd (poll_cycle (good_cycle 0 [32768; 10000; 5000]) 0 started)) =
      db started ++ [row] /\
    big_tank_gallons row = raw_level 32768 (gallons cap_big_tank).
Proof.
  split; [reflexivity|]. split; [reflexivity|]. split; [reflexivity|].
  destruct (persisted_levels_are_unrounded
              (good_cycle 0 [32768; 10000; 5000]) 0 started 32768 10000 5000
              eq_refl eq_refl eq_refl) as ((row & Hdb & Hbig & _) & _).
  exists row. split; assumption.
Defined.

(** ** What each action leaves alone *)

Lemma poll_cycle_frame (env : cycle_env) (last : Z) (s : state) :
  let s' := snd (poll_cycle env last s) in
  running s' = running s /\ cleaned_up s' = cleaned_up s /\
  poll_interval s' = poll_interval s /\
  (exists rows, db s' = db s ++ rows) /\
  (exists evs, trace s' = trace s ++ evs).
Proof.
  cbv zeta. destruct (ping_ok env) eqn:Hping.
  - destruct (poll_cycle_reachable env last s Hping) as (pre & post & Hs & _ & _).
    rewrite Hs.
    destruct (fetch_frame env (extend pre s))
      as (Hr & Hc & Hp & _ & _ & (evs & Ht & _) & (rows & Hd)).
    simpl. rewrite Hr, Hc, Hp, Hd, Ht. simpl.
    repeat split; [exists rows; reflexivity|].
    exists (pre ++ evs ++ post). rewrite !app_assoc. reflexivity.
  - destruct (poll_cycle_unreachable env last s Hping) as (pre & Hs).
    rewrite Hs. simpl. repeat split; [exists []; symmetry; apply app_nil_r|].
    eexists. reflexivity.
Qed.

Lemma release_frame (env : cleanup_env) (s : state) :
  let s' := release env s in
  running s' = false /\ cleaned_up s' = true /\ db s' = db s /\
  exists evs, trace s' = trace s ++ evs.
Proof.
  unfold release. simpl.
  destruct (time_date_after_id s); [destruct (after_cancel_ok env)|]; simpl;
    (destruct (client s); [destruct (socket_open_at_exit env)|]); simpl;
    destruct (destroy_ok env); simpl;
    repeat split; rewrite <- ?app_assoc; eexists; reflexivity.
Qed.

Lemma cleanup_frame (env : cleanup_env) (s : state) :
  let s' := cleanup env s in
  (running s' = true -> running s = true) /\ db s' = db s /\
  (cleaned_up s = true -> cleaned_up s' = true) /\
  exists evs, trace s' = trace s ++ evs.
Proof.
  unfold cleanup. destruct (cleaned_up s) eqn:Hc.
  - repeat split; try assumption; try tauto. exists []. symmetry. apply app_nil_r.
  - assert (Hrel : forall s0, db s0 = db s ->
                     (exists evs, trace s0 = trace s ++ evs) ->
                     (running (release env s0) = true -> running s = true) /\
                     db (release env s0) = db s /\
                     (false = true -> cleaned_up (release env s0) = true) /\
                     exists evs, trace (release env s0) = trace s ++ evs).
    { intros s0 Hdb (evs0 & Ht0).
      destruct (release_frame env s0) as (Hr & _ & Hd & (evs & Ht)).
      rewrite Hr, Hd, Ht, Ht0. repeat split; try discriminate; try assumption.
      exists (evs0 ++ evs). apply eq_sym, app_assoc. }
    destruct (root_alive env).
    + destruct (exit_code env) as [code|].
      * destruct (String.eqb code exit_token).
        -- apply Hrel; [reflexivity | eexists; reflexivity].
        -- simpl. repeat split; try tauto; try discriminate.
           rewrite <- !app_assoc. eexists. reflexivity.
      * simpl. repeat split; try tauto; try discriminate. eexists. reflexivity.
    + apply Hrel; [reflexivity | exists []; symmetry; apply app_nil_r].
Qed.

Lemma save_frame (d : option Z) (s : state) :
  let s' := save d s in
  running s' = running s /\ db s' = db s /\ cleaned_up s' = cleaned_up s /\
  exists evs, trace s' = trace s ++ evs.
Proof.
  unfold save. destruct d as [d|]; [destruct (d <? MIN_POLL_INTERVAL)|]; simpl;
    repeat split; rewrite <- ?app_assoc; try (eexists; reflexivity).
  exists []. symmetry. apply app_nil_r.
Qed.

(** ** The loop *)

Lemma step_iterate (w : system) (env : cycle_env) :
  step w (Iterate env) =
  match thread w with
  | Polling last =>
      if running (app w) then
        {| thread := if sleep_raises (poll_interval (app w)) then Died
                     else Polling (fst (poll_cycle env last (app w)));
           iterations := S (iterations w);
           app := snd (poll_cycle env last (app w)) |}
      else {| thread := Exited; iterations := iterations w; app := app w |}
  | _ => w
  end.
Proof.
  simpl. destruct (thread w) as [last| |]; try reflexivity.
  destruct (running (app w)); [|reflexivity].
  unfold poll_cycle. destruct (ping_ok env) eqn:Hping.
  - rewrite (poll_iteration_reachable env last (app w) Hping).
    destruct (sleep_raises (poll_interval (app w))); reflexivity.
  - rewrite (poll_iteration_unreachable env last (app w) Hping).
    destruct (sleep_raises (poll_interval (app w))); reflexivity.
Qed.

Lemma step_running (w : system) (a : action) :
  running (app (step w a)) = true -> running (app w) = true.
Proof.
  destruct a as [env|env|d]; [rewrite step_iterate | simpl | simpl].
  - destruct (thread w) as [last| |]; try tauto.
    destruct (running (app w)) eqn:R; [reflexivity|].
    simpl. rewrite R. tauto.
  - apply (cleanup_frame env (app w)).
  - rewrite (proj1 (save_frame d (app w))). tauto.
Qed.

Lemma run_running (sched : list action) (w : system) :
  running (app (run sched w)) = true -> running (app w) = true.
Proof.
  revert w. induction sched as [|a sched IH]; intros w; simpl; [tauto|].
  intros H. apply (step_running w a). apply IH. exact H.
Qed.

(** C4, at the failing input.  The settings dialog accepts an interval of
    [1e10] seconds: line 129 refuses only what is below the minimum.  In
    the next iteration the connection is refused, which is logged, and the
    GUI update is published; then the sleep of line 641 raises, the handler
    of line 643 logs the error, and its own sleep (line 645, outside any
    [try]) raises in turn.  The thread has ended with [running] still set,
    and the turns it is given afterwards do nothing. *)
Lemma accepted_interval_ends_the_polling_thread :
  let w1 := run [Save (Some oversized_interval); Iterate (refused_cycle 60000000)]
                (start_polling 0 started) in
  let w2 := run [Iterate (good_cycle 120000000 [32768; 10000; 5000])] w1 in
  early_failure (refused_cycle 60000000) = Some Connect /\
  poll_interval (app w1) = oversized_interval /\
  trace (app w1) =
    [Log ERROR "Failed to connect"; GuiUpdate; Sleep oversized_interval;
     Log ERROR "Polling loop error"; Sleep oversized_interval] /\
  thread w1 = Died /\
  running (app w1) = true /\
  iterations w1 = 1%nat /\
  w2 = w1.
Proof. cbv zeta. repeat split; vm_compute; reflexivity. Qed.

(** ** Staleness *)

(** C5 (amended).  The data is classified stale exactly when an update
    has succeeded at some instant [t] and more than the threshold has
    passed since [t].  Before the first successful update the data is not
    classified stale, and every bar gets the fill it has for fresh data. *)
Theorem stale_iff_updated_and_old :
  forall (s : state) (now : Z),
    (is_stale s now = true <->
     exists t, last_update s = Some t /\ stale_threshold < now - t) /\
    (last_update s = None ->
     is_stale s now = false /\
     bar_fills s now = bar_fills (set_last_update (Some now) s) now).
Proof.
  intros s now. unfold bar_fills, is_stale. simpl. split.
  - destruct (last_update s) as [t|].
    + rewrite Z.ltb_lt. split.
      * intros H. exists t. split; [reflexivity | exact H].
      * intros (t' & Ht & H). inversion Ht; subst. exact H.
    + split; [discriminate|]. intros (t & Ht & _). discriminate Ht.
  - intros ->. split; [reflexivity|].
    replace (stale_threshold <? now - now) with false; [reflexivity|].
    symmetry. apply Z.ltb_ge. unfold stale_threshold. lia.
Qed.

(** C5, as stated, fails: before any successful update the data is not
    reported stale, and the bars are drawn in their normal colours. *)
Lemma never_updated_is_shown_fresh :
  last_update started = None /\
  is_stale started 3600000000 = false /\
  bar_fills started 3600000000 =
    [ ("Big Tank", Some "#32CD32"); ("Tank 1 - Bio", Some "#FFA500");
      ("Tank 2 - Fleet", Some "#FFFF00"); ("Tank 3 - Fleet", Some "#FFFF00");
      ("Tank 4 - Bio", Some "#FFA500"); ("Tank 5 - Bio", Some "#FFA500") ]%string.
Proof. repeat split. Qed.

(** C7 (amended).  The threshold (10 s) is shorter than the default poll
    interval (60 s).  When a cycle that read the registers is followed by
    a cycle that passes the probe and fails at connect, read or transform,
    the failed cycle still publishes a GUI update, and any update drawn a
    poll interval or more after the successful reading shows the stale
    indicator as soon as the poll interval exceeds the threshold: one
    missed cycle is not tolerated. *)
Theorem one_missed_cycle_is_shown_stale :
  forall (env1 env2 : cycle_env) (last : Z) (s : state) (r : Z * Z * Z)
         (st : stage) (t_gui : Z),
    running s = true ->
    List.length (tank_levels s) = 6%nat ->
    readings env1 = Some r ->
    ping_ok env2 = true ->
    early_failure env2 = Some st ->
    after_result env2 = Ok tt ->
    stale_threshold < poll_interval s ->
    now_update env1 + poll_interval s <= t_gui ->
    let c1 := poll_cycle env1 last s in
    let s2 := snd (poll_cycle env2 (fst c1) (snd c1)) in
    stale_threshold < DEFAULT_POLL_INTERVAL /\
    In GuiUpdate (events_since (snd c1) s2) /\
    is_stale s2 t_gui = true.
Proof.
  intros env1 env2 last s [[r0 r1] r2] st t_gui Hrun Hlen Hr Hping Hfail Hafter Hth Ht.
  cbv zeta. split; [reflexivity|].
  destruct (cycle_success env1 last s r0 r1 r2 Hr Hlen) as (_ & _ & Hlu & _).
  destruct (poll_cycle_frame env1 last s) as (Hrun1 & _).
  destruct (early_failure_cycle env2 (fst (poll_cycle env1 last s))
              (snd (poll_cycle env1 last s)) st Hping Hfail) as (evs & Hs2 & Hgui).
  rewrite Hs2, events_since_extend. split.
  - apply Hgui; [rewrite Hrun1; exact Hrun | exact Hafter].
  - unfold is_stale. simpl last_update. rewrite Hlu. apply Z.ltb_lt. lia.
Qed.

Lemma one_missed_cycle_is_shown_stale_witness :
  running started = true /\
  List.length (tank_levels started) = 6%nat /\
  readings (good_cycle 0 [32768; 10000; 5000]) = Some (32768, 10000, 5000) /\
  ping_ok (refused_cycle 60000000) = true /\
  early_failure (refused_cycle 60000000) = Some Connect /\
  after_result (refused_cycle 60000000) = Ok tt /\
  stale_threshold < poll_interval started /\
  now_update (good_cycle 0 [32768; 10000; 5000]) + poll_interval started <= 60000000 /\
  (let c1 := poll_cycle (good_cycle 0 [32768; 10000; 5000]) (-60000000) started in
   let s2 := snd (poll_cycle (refused_cycle 60000000) (fst c1) (snd c1)) in
   stale_threshold < DEFAULT_POLL_INTERVAL /\
   In GuiUpdate (events_since (snd c1) s2) /\
   is_stale s2 60000000 = true).
Proof.
  assert (Hth : stale_threshold < poll_interval started) by reflexivity.
  assert (Hgui : now_update (good_cycle 0 [32768; 10000; 5000])
                 + poll_interval started <= 60000000)
    by (vm_compute; discriminate).
  do 6 (split; [reflexivity|]).
  split; [exact Hth|]. split; [exact Hgui|].
  exact (one_missed_cycle_is_shown_stale
           (good_cycle 0 [32768; 10000; 5000]) (refused_cycle 60000000)
           (-60000000) started (32768, 10000, 5000) Connect 60000000
           eq_refl eq_refl eq_refl eq_refl eq_refl eq_refl Hth Hgui).
Defined.

(** C7, as stated, fails: a cycle reads the registers at instant 0 and
    the next cycle, a poll interval later, is refused the connection; the
    GUI update it publishes is drawn with the stale indicator. *)
Lemma missed_cycle_not_tolerated :
  let c1 := poll_cycle (good_cycle 0 [32768; 10000; 5000]) (-60000000) started in
  let s2 := snd (poll_cycle (refused_cycle 60000000) (fst c1) (snd c1)) in
  events_since (snd c1) s2 =
    [Log ERROR "Failed to connect"; GuiUpdate; Sleep DEFAULT_POLL_INTERVAL] /\
  is_stale s2 60000000 = true /\
  map snd (bar_fills s2 60000000) = repeat (Some "gray"%string) 6.
Proof. cbv zeta. repeat split; vm_compute; reflexivity. Qed.

(** ** The log *)

Lemma step_db (w : system) (a : action) :
  exists rows, db (app (step w a)) = db (app w) ++ rows.
Proof.
  destruct a as [env|env|d]; [rewrite step_iterate | simpl | simpl].
  - destruct (thread w) as [last| |]; try (exists []; symmetry; apply app_nil_r).
    destruct (running (app w)); [|exists []; symmetry; apply app_nil_r].
    destruct (poll_cycle_frame env last (app w)) as (_ & _ & _ & Hdb & _).
    exact Hdb.
  - exists []. rewrite app_nil_r. apply (cleanup_frame env (app w)).
  - exists []. rewrite app_nil_r. apply (save_frame d (app w)).
Qed.

(** C6 (amended).  While the program runs the log only grows: whatever
    the polling thread, [cleanup] and the settings dialog do, the rows
    present before are still there, in order, followed by the new ones.
    Start-up is the exception: it removes an existing database file, so
    when the removal succeeds the program starts from an empty log. *)
Theorem log_grows_within_a_run :
  (forall (sched : list action) (w : system),
      exists rows, db (app (run sched w)) = db (app w) ++ rows) /\
  (forall (env : init_env) (rows : list LogRecord) (s : state),
      existing_db env = Some rows ->
      remove_result env = Ok tt ->
      init env = Ok s ->
      db s = []).
Proof.
  split.
  - intros sched. induction sched as [|a sched IH]; intros w; simpl.
    + exists []. symmetry. apply app_nil_r.
    + destruct (IH (step w a)) as (rows2 & H2).
      destruct (step_db w a) as (rows1 & H1).
      exists (rows1 ++ rows2). rewrite H2, H1, app_assoc. reflexivity.
  - intros env rows s Hex Hrm. unfold init, init_database. rewrite Hex, Hrm.
    destruct (setup_result env); [|discriminate].
    intros H. inversion H. reflexivity.
Qed.

(** C6, as stated, fails: a start-up that finds a database holding a
    row deletes it. *)
Lemma restart_drops_the_log :
  existing_db restart = Some [old_row] /\
  exists s, init restart = Ok s /\ db s = [].
Proof. split; [reflexivity|]. eexists. split; reflexivity. Qed.

(** ** Shutdown *)

(** C8.  With the window alive and an exit code that is absent or not
    the token, [cleanup] changes nothing but the trace: [running] and
    [cleaned_up] keep their values, and neither the socket is closed nor
    the window destroyed nor the timer cancelled. *)
Theorem wrong_code_aborts_cleanup :
  forall (env : cleanup_env) (s : state),
    root_alive env = true ->
    exit_code env <> Some exit_token ->
    let s' := cleanup env s in
    s' = extend (events_since s s') s /\
    running s' = running s /\
    cleaned_up s' = cleaned_up s /\
    ~ In SocketClose (events_since s s') /\
    ~ In RootDestroy (events_since s s') /\
    ~ In AfterCancel (events_since s s').
Proof.
  intros env s Halive Hcode. cbv zeta. unfold cleanup.
  destruct (cleaned_up s) eqn:Hc.
  - rewrite events_since_refl, extend_nil.
    repeat match goal with |- _ /\ _ => split end;
      try reflexivity; simpl; tauto.
  - rewrite Halive. destruct (exit_code env) as [code|].
    + destruct (String.eqb code exit_token) eqn:E.
      * apply String.eqb_eq in E. subst code. contradiction Hcode. reflexivity.
      * unfold log. rewrite !emit_extend, !extend_extend, !events_since_extend.
        repeat match goal with |- _ /\ _ => split end;
          try reflexivity; try exact Hc; simpl; intros H;
          repeat destruct H as [H|H]; try discriminate H; exact H.
    + rewrite emit_extend, !events_since_extend.
      repeat match goal with |- _ /\ _ => split end;
        try reflexivity; try exact Hc; simpl; intros H;
        repeat destruct H as [H|H]; try discriminate H; exact H.
Qed.

Lemma wrong_code_aborts_cleanup_witness :
  root_alive (typed (Some "0000"%string)) = true /\
  exit_code (typed (Some "0000"%string)) <> Some exit_token /\
  running (cleanup (typed (Some "0000"%string)) started) = running started /\
  cleaned_up (cleanup (typed (Some "0000"%string)) started) = cleaned_up started.
Proof.
  assert (Hcode : exit_code (typed (Some "0000"%string)) <> Some exit_token)
    by discriminate.
  split; [reflexivity|]. split; [exact Hcode|].
  destruct (wrong_code_aborts_cleanup (typed (Some "0000"%string)) started
              eq_refl Hcode) as (_ & Hr & Hc & _).
  split; assumption.
Defined.

(** C9.  Once [cleaned_up] is set, [cleanup] returns the state it was
    given, trace included: no prompt, no second close, no row, whatever
    the trigger. *)
Theorem cleanup_idempotent :
  forall (env : cleanup_env) (s : state),
    cleaned_up s = true ->
    cleanup env s = s /\
    events_since s (cleanup env s) = [] /\
    db (cleanup env s) = db s.
Proof.
  intros env s Hc. unfold cleanup. rewrite Hc.
  repeat split. apply events_since_refl.
Qed.

Lemma cleanup_idempotent_witness :
  cleaned_up (cleanup at_exit started) = true /\
  cleanup (typed (Some exit_token)) (cleanup at_exit started)
    = cleanup at_exit started.
Proof.
  assert (Hc : cleaned_up (cleanup at_exit started) = true) by reflexivity.
  split; [exact Hc|].
  exact (proj1 (cleanup_idempotent (typed (Some exit_token))
                  (cleanup at_exit started) Hc)).
Defined.

(** * Further properties of the code *)

(** ** The trace of one iteration *)

Lemma fetch_events_shape (env : cycle_env) (s : state) :
  exists evs,
    trace (fetch_tank_levels env s) = trace s ++ evs /\
    ((fetch_fails env s = false /\ evs = []) \/
     (fetch_fails env s = true /\ exists msg, evs = [Log ERROR msg])).
Proof.
  unfold fetch_fails, early_failure, fetch_tank_levels, fetch_try, log_to_database.
  destruct (if socket_open env then Ok true else connect_result env) as [[|]|e].
  - destruct (read_result env) as [[|regs]|e].
    + eexists. split; [reflexivity|]. right. split; [reflexivity|]. eexists. reflexivity.
    + destruct (read_levels regs) as [[[l1 l2] l3]|e].
      * destruct (store_levels (level_writes l1 l2 l3) (tank_levels s)) as [[|e] tl].
        -- destruct (insert_result env) as [|e].
           ++ exists []. simpl. rewrite app_nil_r. split; [reflexivity|].
              left. split; reflexivity.
           ++ destruct e; simpl; eexists; (split; [reflexivity|]);
                right; (split; [reflexivity|]); eexists; reflexivity.
        -- destruct (is_modbus_error e); simpl; eexists; (split; [reflexivity|]);
             right; (split; [reflexivity|]); eexists; reflexivity.
      * destruct (is_modbus_error e); simpl; eexists; (split; [reflexivity|]);
          right; (split; [reflexivity|]); eexists; reflexivity.
    + destruct (is_modbus_error e); simpl; eexists; (split; [reflexivity|]);
        right; (split; [reflexivity|]); eexists; reflexivity.
  - eexists. split; [reflexivity|]. right. split; [reflexivity|]. eexists. reflexivity.
  - destruct (is_modbus_error e); simpl; eexists; (split; [reflexivity|]);
      right; (split; [reflexivity|]); eexists; reflexivity.
Qed.

Lemma skipn_length_app (l x : list event) : skipn (List.length l) (l ++ x) = x.
Proof. induction l as [|e l IH]; simpl; [reflexivity | exact IH]. Qed.

Lemma fetch_events_trace (env : cycle_env) (s : state) :
  trace (fetch_tank_levels env s) = trace s ++ fetch_events env s.
Proof.
  destruct (fetch_events_shape env s) as (evs & Ht & _).
  unfold fetch_events. rewrite (events_since_app _ _ _ Ht). exact Ht.
Qed.

Lemma fetch_events_fails (env : cycle_env) (s : state) :
  (fetch_fails env s = false /\ fetch_events env s = []) \/
  (fetch_fails env s = true /\ exists msg, fetch_events env s = [Log ERROR msg]).
Proof.
  destruct (fetch_events_shape env s) as (evs & Ht & H).
  unfold fetch_events. rewrite (events_since_app _ _ _ Ht). exact H.
Qed.

Lemma fetch_events_extend (env : cycle_env) (pre : list event) (s : state) :
  fetch_events env (extend pre s) = fetch_events env s.
Proof.
  unfold fetch_events, events_since, fetch_tank_levels, fetch_try, log_to_database.
  simpl tank_levels.
  destruct (if socket_open env then Ok true else connect_result env) as [[|]|e];
    [destruct (read_result env) as [[|regs]|e];
     [| destruct (read_levels regs) as [[[l1 l2] l3]|e];
        [destruct (store_levels (level_writes l1 l2 l3) (tank_levels s)) as [[|e] tl];
         [destruct (insert_result env) as [|e]; [|destruct e] |] |] |] | |];
    try destruct (is_modbus_error e); simpl trace;
    rewrite ?skipn_length_app, ?skipn_all; reflexivity.
Qed.

Lemma poll_cycle_events (env : cycle_env) (last : Z) (s : state) :
  events_since s (snd (poll_cycle env last s)) =
    throttle_events env last ++
    (if ping_ok env then fetch_events env s ++ closing_events env s
     else ping_events env ++
          Log WARNING "Device unreachable, skipping fetch"
          :: Sleep (poll_interval s) :: rescue_events s).
Proof.
  unfold poll_cycle. destruct (ping_ok env) eqn:Hping.
  - rewrite (poll_iteration_reachable env last s Hping). simpl snd.
    pose proof (fetch_events_trace env (extend (throttle_events env last) s)) as Ht.
    rewrite fetch_events_extend in Ht.
    apply events_since_app. simpl. rewrite Ht. simpl.
    rewrite <- !app_assoc. reflexivity.
  - rewrite (poll_iteration_unreachable env last s Hping). simpl snd.
    apply events_since_extend.
Qed.

Lemma occurrences_app (e : event) (a b : list event) :
  occurrences e (a ++ b) = (occurrences e a + occurrences e b)%nat.
Proof. unfold occurrences. rewrite filter_app, length_app. reflexivity. Qed.

Lemma throttle_no_gui (env : cycle_env) (last : Z) :
  occurrences GuiUpdate (throttle_events env last) = 0%nat.
Proof.
  unfold throttle_events. destruct (t_start env - last <? MIN_POLL_INTERVAL); reflexivity.
Qed.

Lemma fetch_no_gui (env : cycle_env) (s : state) :
  occurrences GuiUpdate (fetch_events env s) = 0%nat.
Proof.
  destruct (fetch_events_fails env s) as [[_ ->]|[_ [msg ->]]]; reflexivity.
Qed.

Lemma cycle_ends_with_sleep (env : cycle_env) (last : Z) (s : state) :
  (exists evs,
      events_since s (snd (poll_cycle env last s)) = evs ++ [Sleep (poll_interval s)]) /\
  (sleep_raises (poll_interval s) = true ->
   exists evs,
     events_since s (snd (poll_cycle env last s)) =
       evs ++ [Log ERROR "Polling loop error"; Sleep (poll_interval s)]).
Proof.
  rewrite poll_cycle_events. unfold closing_events, rescue_events.
  set (overrun := if poll_interval s <? t_end env - t_start env
                  then [Log WARNING "Polling took longer than interval"]
                  else []).
  set (d := poll_interval s).
  destruct (sleep_raises d);
    (destruct (ping_ok env);
     [destruct (running s); [destruct (after_result env) as [[]|e]|] |]);
    split; try discriminate; intros;
    repeat match goal with
    | |- exists evs, ?pre ++ ?mid ++ GuiUpdate :: ?o ++ [Sleep ?x; ?l; Sleep ?x] = _ ++ [Sleep ?x] =>
        exists (pre ++ mid ++ GuiUpdate :: o ++ [Sleep x; l])
    | |- exists evs, ?pre ++ ?mid ++ GuiUpdate :: ?o ++ [Sleep ?x; ?l; Sleep ?x] = _ ++ [?l; Sleep ?x] =>
        exists (pre ++ mid ++ GuiUpdate :: o ++ [Sleep x])
    | |- exists evs, ?pre ++ ?mid ++ GuiUpdate :: ?o ++ [Sleep ?x] = _ ++ [Sleep ?x] =>
        exists (pre ++ mid ++ GuiUpdate :: o)
    | |- exists evs, ?pre ++ ?mid ++ [?l; Sleep ?x] = _ ++ [Sleep ?x] =>
        exists (pre ++ mid ++ [l])
    | |- exists evs, ?pre ++ ?mid ++ [?l; Sleep ?x] = _ ++ [?l; Sleep ?x] =>
        exists (pre ++ mid)
    | |- exists evs, ?pre ++ ?mid ++ ?o ++ [Sleep ?x; ?l; Sleep ?x] = _ ++ [Sleep ?x] =>
        exists (pre ++ mid ++ o ++ [Sleep x; l])
    | |- exists evs, ?pre ++ ?mid ++ ?o ++ [Sleep ?x; ?l; Sleep ?x] = _ ++ [?l; Sleep ?x] =>
        exists (pre ++ mid ++ o ++ [Sleep x])
    | |- exists evs, ?pre ++ ?mid ++ ?o ++ [Sleep ?x] = _ ++ [Sleep ?x] =>
        exists (pre ++ mid ++ o)
    | |- exists evs, ?pre ++ ?mid ++ [?u; Sleep ?x; ?l; Sleep ?x] = _ ++ [Sleep ?x] =>
        exists (pre ++ mid ++ [u; Sleep x; l])
    | |- exists evs, ?pre ++ ?mid ++ [?u; Sleep ?x; ?l; Sleep ?x] = _ ++ [?l; Sleep ?x] =>
        exists (pre ++ mid ++ [u; Sleep x])
    | |- exists evs, ?pre ++ ?mid ++ [?u; Sleep ?x] = _ ++ [Sleep ?x] =>
        exists (pre ++ mid ++ [u])
    end;
    rewrite <- ?app_assoc; simpl; rewrite <- ?app_assoc; reflexivity.
Qed.

(** X1.  An iteration of the loop always ends with a call of
    [time.sleep] on the poll interval.  When [time.sleep] accepts that
    interval the thread goes on polling, whatever else failed in the
    iteration.  When it refuses it, the iteration ends with the error line
    of the handler and the handler's own call of [time.sleep], which raises
    out of the loop: the thread has ended with [running] still set. *)
Theorem iteration_ends_the_thread_iff_sleep_refuses :
  forall (env : cycle_env) (w : system) (last : Z),
    thread w = Polling last ->
    running (app w) = true ->
    let w' := step w (Iterate env) in
    let d := poll_interval (app w) in
    iterations w' = S (iterations w) /\
    running (app w') = true /\
    (exists evs, events_since (app w) (app w') = evs ++ [Sleep d]) /\
    (sleep_raises d = false -> exists t, thread w' = Polling t) /\
    (sleep_raises d = true ->
     thread w' = Died /\
     exists evs,
       events_since (app w) (app w') =
         evs ++ [Log ERROR "Polling loop error"; Sleep d]).
Proof.
  intros env w last T R. cbv zeta. rewrite step_iterate, T, R. simpl.
  destruct (poll_cycle_frame env last (app w)) as (Hr & _).
  destruct (cycle_ends_with_sleep env last (app w)) as (Hsleep & Hrescue).
  rewrite Hr, R. split; [reflexivity|]. split; [reflexivity|].
  split; [exact Hsleep|]. split.
  - intros ->. eexists. reflexivity.
  - intros E. rewrite E. split; [reflexivity | exact (Hrescue E)].
Qed.

Lemma iteration_ends_the_thread_iff_sleep_refuses_witness :
  thread (run [Save (Some oversized_interval)] (start_polling 0 started)) = Polling 0 /\
  running (app (run [Save (Some oversized_interval)] (start_polling 0 started))) = true /\
  thread (run [Save (Some oversized_interval);
               Iterate (good_cycle 60000000 [32768; 10000; 5000])]
            (start_polling 0 started)) = Died.
Proof.
  split; [reflexivity|]. split; [reflexivity|].
  exact (proj1 (proj2 (proj2 (proj2 (proj2
           (iteration_ends_the_thread_iff_sleep_refuses
              (good_cycle 60000000 [32768; 10000; 5000])
              (run [Save (Some oversized_interval)] (start_polling 0 started))
              0 eq_refl eq_refl)))) eq_refl)).
Defined.

Lemma gui_update_count :
  forall (env : cycle_env) (last : Z) (s : state),
    occurrences GuiUpdate (events_since s (snd (poll_cycle env last s))) =
    if ping_ok env
    then (if running s && match after_result env with Ok _ => true | Raise _ => false end
          then 1%nat else 0%nat)
    else 0%nat.
Proof.
  intros env last s. rewrite poll_cycle_events, occurrences_app, throttle_no_gui.
  destruct (ping_ok env).
  - rewrite occurrences_app, fetch_no_gui. unfold closing_events, rescue_events.
    destruct (running s); [destruct (after_result env) as [[]|e]|];
      destruct (poll_interval s <? t_end env - t_start env);
      destruct (sleep_raises (poll_interval s)); reflexivity.
  - unfold ping_events, rescue_events.
    destruct (ping_result env) as [rc|e]; [destruct (rc =? 0) | destruct e];
      destruct (sleep_raises (poll_interval s)); reflexivity.
Qed.

(** X2.  An iteration hands a GUI update to the consumer exactly once
    when the probe succeeded, [running] is set and [root.after] went
    through, and not at all otherwise; the outcome of the fetch plays no
    part. *)
Theorem gui_update_published_iff_probe_ok :
  forall (env : cycle_env) (last : Z) (s : state),
    occurrences GuiUpdate (events_since s (snd (poll_cycle env last s))) =
    if ping_ok env && running s
       && match after_result env with Ok _ => true | Raise _ => false end
    then 1%nat else 0%nat.
Proof.
  intros env last s. rewrite gui_update_count.
  destruct (ping_ok env), (running s), (after_result env); reflexivity.
Qed.

(** X3.  When the probe fails the iteration touches neither the levels,
    nor the last-update instant, nor the log, and keeps [last_poll_time]
    as it was.  What it does is, in order: the throttle, the line
    [ping_device] logs on the path that failed (a warning for a non-zero
    return code, an error for a timeout or another exception), the warning
    that the device is unreachable, the call of [time.sleep] on the poll
    interval and, when that call raises, the error line of the handler and
    the handler's own call. *)
Theorem unreachable_device_skips_the_cycle :
  forall (env : cycle_env) (last : Z) (s : state),
    ping_ok env = false ->
    let c := poll_cycle env last s in
    fst c = last /\
    tank_levels (snd c) = tank_levels s /\
    last_update (snd c) = last_update s /\
    db (snd c) = db s /\
    (exists l msg, ping_events env = [Log l msg]) /\
    events_since s (snd c) =
      throttle_events env last ++ ping_events env ++
      [Log WARNING "Device unreachable, skipping fetch"; Sleep (poll_interval s)] ++
      (if sleep_raises (poll_interval s)
       then [Log ERROR "Polling loop error"; Sleep (poll_interval s)]
       else []).
Proof.
  intros env last s Hping. cbv zeta.
  pose proof (poll_cycle_events env last s) as Hev. rewrite Hping in Hev.
  destruct (poll_cycle_unreachable env last s Hping) as (pre & Hc).
  rewrite Hc in *. simpl. repeat split; [|exact Hev].
  unfold ping_ok in Hping. unfold ping_events.
  destruct (ping_result env) as [rc|e].
  - rewrite Hping. eexists. eexists. reflexivity.
  - destruct e; eexists; eexists; reflexivity.
Qed.

Lemma unreachable_device_skips_the_cycle_witness :
  ping_ok (unreachable_cycle 60000000) = false /\
  fst (poll_cycle (unreachable_cycle 60000000) 0 started) = 0 /\
  events_since started (snd (poll_cycle (unreachable_cycle 60000000) 0 started)) =
    [Log WARNING "Ping failed"; Log WARNING "Device unreachable, skipping fetch";
     Sleep DEFAULT_POLL_INTERVAL].
Proof.
  split; [reflexivity|].
  destruct (unreachable_device_skips_the_cycle (unreachable_cycle 60000000) 0 started
              eq_refl) as (Hl & _ & _ & _ & _ & Hev).
  split; [exact Hl | exact Hev].
Defined.

(** X4.  An iteration that starts less than the minimum interval after
    the previous one first warns and sleeps exactly the remainder, a
    positive time; one that starts later does not sleep before the probe. *)
Theorem early_iteration_waits_for_the_minimum :
  forall (env : cycle_env) (last : Z) (s : state),
    let elapsed := t_start env - last in
    let evs := events_since s (snd (poll_cycle env last s)) in
    (elapsed < MIN_POLL_INTERVAL ->
     0 < MIN_POLL_INTERVAL - elapsed /\
     exists rest,
       evs = Log WARNING "Polling too fast"
             :: Sleep (MIN_POLL_INTERVAL - elapsed) :: rest) /\
    (MIN_POLL_INTERVAL <= elapsed ->
     occurrences (Log WARNING "Polling too fast") evs = 0%nat).
Proof.
  intros env last s. cbv zeta. rewrite poll_cycle_events. unfold throttle_events.
  split; intros H.
  - rewrite (proj2 (Z.ltb_lt _ _) H). split; [lia|]. eexists. reflexivity.
  - rewrite (proj2 (Z.ltb_ge _ _) H). simpl app.
    unfold closing_events, rescue_events, ping_events.
    destruct (ping_ok env).
    + rewrite occurrences_app.
      destruct (fetch_events_fails env s) as [[_ ->]|[_ [msg ->]]];
        (destruct (running s); [destruct (after_result env) as [[]|e]|]);
        destruct (poll_interval s <? t_end env - t_start env);
        destruct (sleep_raises (poll_interval s)); reflexivity.
    + destruct (ping_result env) as [rc|e]; [destruct (rc =? 0) | destruct e];
        destruct (sleep_raises (poll_interval s)); reflexivity.
Qed.

(** X5.  An iteration in which no step fails (the probe, the steps of
    the fetch, the insert, [root.after], the sleep of the poll interval)
    logs no error: error lines only come from failures. *)
Theorem no_error_logged_without_failure :
  forall (env : cycle_env) (last : Z) (s : state),
    cycle_fails env s = false ->
    existsb is_error (events_since s (snd (poll_cycle env last s))) = false.
Proof.
  intros env last s H. unfold cycle_fails in H.
  apply orb_false_iff in H. destruct H as [H Hsleep].
  apply orb_false_iff in H. destruct H as [H Hpub].
  apply orb_false_iff in H. destruct H as [Hping Hfetch].
  apply negb_false_iff in Hping.
  rewrite poll_cycle_events, Hping, !existsb_app.
  destruct (fetch_events_fails env s) as [[_ ->]|[Hf _]];
    [|rewrite Hf in Hfetch; discriminate Hfetch].
  unfold throttle_events, closing_events, rescue_events. rewrite Hsleep.
  destruct (t_start env - last <? MIN_POLL_INTERVAL);
    (destruct (running s); [destruct (after_result env) as [[]|e]|]);
    try discriminate Hpub;
    destruct (poll_interval s <? t_end env - t_start env); reflexivity.
Qed.

Lemma no_error_logged_without_failure_witness :
  cycle_fails (good_cycle 60000000 [32768; 10000; 5000]) started = false /\
  existsb is_error
    (events_since started
       (snd (poll_cycle (good_cycle 60000000 [32768; 10000; 5000]) 0 started))) = false.
Proof.
  assert (H : cycle_fails (good_cycle 60000000 [32768; 10000; 5000]) started = false)
    by (vm_compute; reflexivity).
  split; [exact H|].
  exact (no_error_logged_without_failure
           (good_cycle 60000000 [32768; 10000; 5000]) 0 started H).
Defined.

(** X6.  When the insert fails after the registers were read, the row
    is dropped and an error is logged, but the reading is kept: the six
    levels and the last-update instant are those of this cycle, and the GUI
    update is published as usual. *)
Theorem failed_insert_keeps_the_reading :
  forall (env : cycle_env) (last : Z) (s : state) (r0 r1 r2 : Z) (e : exn),
    readings env = Some (r0, r1, r2) ->
    List.length (tank_levels s) = 6%nat ->
    insert_result env = Raise e ->
    let s' := snd (poll_cycle env last s) in
    map level (tank_levels s') = displayed_levels r0 r1 r2 /\
    last_update s' = Some (now_update env) /\
    db s' = db s /\
    existsb is_error (events_since s s') = true /\
    occurrences GuiUpdate (events_since s s') =
      (if running s && match after_result env with Ok _ => true | Raise _ => false end
       then 1%nat else 0%nat).
Proof.
  intros env last s r0 r1 r2 e H Hlen Hins.
  destruct (cycle_success env last s r0 r1 r2 H Hlen) as (Hl & _ & Hlu & _ & Hdb).
  destruct (readings_inv _ _ _ _ H) as (Hping & _).
  cbv zeta. repeat split; try assumption.
  - apply Hdb. exists e. exact Hins.
  - rewrite poll_cycle_events, Hping, !existsb_app.
    destruct (fetch_events_fails env s) as [[Hf _]|[_ [msg ->]]].
    + unfold fetch_fails in Hf.
      rewrite (readings_no_early_failure env _ H), Hins in Hf.
      destruct (fst (fetch_try env s)); discriminate Hf.
    + simpl. apply orb_true_r.
  - rewrite gui_update_count, Hping. reflexivity.
Qed.

Lemma failed_insert_keeps_the_reading_witness :
  readings (locked_db_cycle 60000000 [32768; 10000; 5000]) = Some (32768, 10000, 5000) /\
  List.length (tank_levels started) = 6%nat /\
  insert_result (locked_db_cycle 60000000 [32768; 10000; 5000]) = Raise SqliteError /\
  db (snd (poll_cycle (locked_db_cycle 60000000 [32768; 10000; 5000]) 0 started))
    = db started /\
  last_update (snd (poll_cycle (locked_db_cycle 60000000 [32768; 10000; 5000]) 0 started))
    = Some 60000000.
Proof.
  do 3 (split; [reflexivity|]).
  destruct (failed_insert_keeps_the_reading
              (locked_db_cycle 60000000 [32768; 10000; 5000]) 0 started
              32768 10000 5000 SqliteError eq_refl eq_refl eq_refl)
    as (_ & Hlu & Hdb & _).
  split; assumption.
Defined.

(** X7.  After a cycle that read the registers the data is stale
    exactly for the instants more than the threshold past that cycle's
    update, whatever the state was before; in particular it is fresh at
    the instant of the update. *)
Theorem successful_cycle_resets_staleness :
  forall (env : cycle_env) (last : Z) (s : state) (r : Z * Z * Z),
    readings env = Some r ->
    List.length (tank_levels s) = 6%nat ->
    let s' := snd (poll_cycle env last s) in
    (forall now, is_stale s' now = (stale_threshold <? now - now_update env)) /\
    is_stale s' (now_update env) = false.
Proof.
  intros env last s [[r0 r1] r2] H Hlen.
  destruct (cycle_success env last s r0 r1 r2 H Hlen) as (_ & _ & Hlu & _).
  cbv zeta. unfold is_stale. rewrite Hlu. split; [reflexivity|].
  apply Z.ltb_ge. unfold stale_threshold. lia.
Qed.

Lemma successful_cycle_resets_staleness_witness :
  readings (good_cycle 0 [32768; 10000; 5000]) = Some (32768, 10000, 5000) /\
  List.length (tank_levels started) = 6%nat /\
  is_stale (snd (poll_cycle (good_cycle 0 [32768; 10000; 5000]) 0 started)) 0 = false.
Proof.
  do 2 (split; [reflexivity|]).
  exact (proj2 (successful_cycle_resets_staleness
                  (good_cycle 0 [32768; 10000; 5000]) 0 started (32768, 10000, 5000)
                  eq_refl eq_refl)).
Defined.

(** ** The trace of [cleanup] *)

Lemma release_extend (env : cleanup_env) (s : state) :
  release env s =
  extend (teardown_events env s) (set_running false (set_cleaned_up true s)).
Proof.
  unfold release, teardown_events, log. simpl.
  destruct (time_date_after_id s); [destruct (after_cancel_ok env)|]; simpl;
    (destruct (client s); [destruct (socket_open_at_exit env)|]); simpl;
    destruct (destroy_ok env); rewrite ?emit_extend, ?extend_extend;
    try reflexivity.
  all: unfold extend; simpl; rewrite ?app_nil_r; reflexivity.
Qed.

Lemma cleanup_extend (env : cleanup_env) (s : state) :
  cleanup env s =
  extend (cleanup_events env s)
    (if negb (cleaned_up s) && authorised env
     then set_running false (set_cleaned_up true s) else s).
Proof.
  unfold cleanup, cleanup_events, authorised.
  destruct (cleaned_up s) eqn:Hc; simpl.
  - symmetry. apply extend_nil.
  - destruct (root_alive env); simpl.
    + destruct (exit_code env) as [code|].
      * destruct (String.eqb code exit_token).
        -- rewrite release_extend. unfold extend. simpl.
           rewrite <- app_assoc. reflexivity.
        -- unfold log. rewrite !emit_extend, !extend_extend. reflexivity.
      * apply emit_extend.
    + apply release_extend.
Qed.

Lemma cleanup_events_since (env : cleanup_env) (s : state) :
  events_since s (cleanup env s) = cleanup_events env s.
Proof.
  rewrite cleanup_extend. apply events_since_app.
  destruct (negb (cleaned_up s) && authorised env); reflexivity.
Qed.

(** X8.  A call of [cleanup] goes through to the teardown exactly when
    the state is not yet cleaned and either the window is gone or the code
    typed is the token; it then clears [running].  In no case does it
    touch the levels, the last-update instant, the log or the interval. *)
Theorem cleanup_goes_through_iff_authorised :
  forall (env : cleanup_env) (s : state),
    let s' := cleanup env s in
    cleaned_up s' = cleaned_up s || authorised env /\
    running s' = running s && (cleaned_up s || negb (authorised env)) /\
    tank_levels s' = tank_levels s /\
    last_update s' = last_update s /\
    db s' = db s /\
    poll_interval s' = poll_interval s.
Proof.
  intros env s. cbv zeta. rewrite cleanup_extend.
  destruct (cleaned_up s) eqn:Hc, (authorised env), (running s) eqn:Hr; simpl;
    rewrite ?Hc, ?Hr; repeat split.
Qed.

(** X9.  [cleanup] asks for the exit code exactly once when the state
    is not yet cleaned and the window is alive, and never otherwise: the
    exit hook on a destroyed window and a repeated call do not prompt. *)
Theorem cleanup_prompts_only_on_a_live_window :
  forall (env : cleanup_env) (s : state),
    occurrences Prompt (events_since s (cleanup env s)) =
    if negb (cleaned_up s) && root_alive env then 1%nat else 0%nat.
Proof.
  intros env s. rewrite cleanup_events_since. unfold cleanup_events.
  destruct (cleaned_up s); [reflexivity|]. simpl negb. cbv iota.
  rewrite occurrences_app.
  assert (H : occurrences Prompt
                (if authorised env then teardown_events env s
                 else match exit_code env with
                      | Some _ => [Log WARNING "Incorrect exit code entered"; ShowError]
                      | None => []
                      end) = 0%nat).
  { unfold teardown_events.
    destruct (authorised env); [|destruct (exit_code env); reflexivity].
    destruct (time_date_after_id s); [destruct (after_cancel_ok env)|];
      destruct (client s && socket_open_at_exit env); destruct (destroy_ok env);
      reflexivity. }
  rewrite H. destruct (root_alive env); reflexivity.
Qed.

(** X10.  A teardown that goes through destroys the window once,
    closes the socket once if there is a client whose socket is open and
    not at all otherwise, and cancels the clock timer once if one is
    pending; a Tk error in the cancel or in the destroy is logged and does
    not keep the state from being marked cleaned. *)
Theorem teardown_releases_each_resource_once :
  forall (env : cleanup_env) (s : state),
    cleaned_up s = false ->
    authorised env = true ->
    let s' := cleanup env s in
    let evs := events_since s s' in
    cleaned_up s' = true /\
    running s' = false /\
    occurrences RootDestroy evs = 1%nat /\
    occurrences SocketClose evs =
      (if client s && socket_open_at_exit env then 1%nat else 0%nat) /\
    occurrences AfterCancel evs =
      (match time_date_after_id s with Some _ => 1%nat | None => 0%nat end).
Proof.
  intros env s Hc Ha. cbv zeta. rewrite cleanup_events_since, cleanup_extend.
  unfold cleanup_events, teardown_events. rewrite Hc, Ha. simpl.
  repeat split;
    destruct (root_alive env);
    (destruct (time_date_after_id s); [destruct (after_cancel_ok env)|]);
    destruct (client s && socket_open_at_exit env); destruct (destroy_ok env);
    reflexivity.
Qed.

Lemma teardown_releases_each_resource_once_witness :
  cleaned_up started = false /\
  authorised at_exit = true /\
  cleaned_up (cleanup at_exit started) = true /\
  occurrences SocketClose (events_since started (cleanup at_exit started)) = 1%nat.
Proof.
  do 2 (split; [reflexivity|]).
  destruct (teardown_releases_each_resource_once at_exit started eq_refl eq_refl)
    as (Hc & _ & _ & Hs & _).
  split; [exact Hc | exact Hs].
Defined.

(** ** Invariants of a run *)

Lemma run_invariant (P : system -> Prop) :
  (forall w a, P w -> P (step w a)) ->
  forall sched w, P w -> P (run sched w).
Proof.
  intros Hstep sched. induction sched as [|a sched IH]; intros w Hw; simpl.
  - exact Hw.
  - apply IH. apply Hstep. exact Hw.
Qed.

Section Preserved.

Variable A : Type.
Variable f : tank -> A.
Hypothesis f_level : forall v t, f (with_level v t) = f t.

Lemma replace_nth_map (i : nat) (v : float) (t : tank) (tl : list tank) :
  nth_error tl i = Some t ->
  map f (replace_nth i (with_level v t) tl) = map f tl.
Proof.
  revert i. induction tl as [|x rest IH]; intros [|j] H; simpl in *;
    try discriminate.
  - inversion H; subst. rewrite f_level. reflexivity.
  - rewrite (IH j H). reflexivity.
Qed.

Lemma store_levels_map (writes : list (nat * float)) (tl : list tank) :
  map f (snd (store_levels writes tl)) = map f tl.
Proof.
  revert tl. induction writes as [|[i v] rest IH]; intros tl; simpl.
  - reflexivity.
  - unfold set_level. destruct (nth_error tl i) as [t|] eqn:H; simpl.
    + rewrite IH. apply replace_nth_map. exact H.
    + reflexivity.
Qed.

Lemma fetch_map (env : cycle_env) (s : state) :
  map f (tank_levels (fetch_tank_levels env s)) = map f (tank_levels s).
Proof.
  unfold fetch_tank_levels, fetch_try, log_to_database.
  destruct (if socket_open env then Ok true else connect_result env) as [[|]|e];
    [destruct (read_result env) as [[|regs]|e];
     [| destruct (read_levels regs) as [[[l1 l2] l3]|e] |] | |];
    try (destruct (is_modbus_error e); reflexivity); try reflexivity.
  pose proof (store_levels_map (level_writes l1 l2 l3) (tank_levels s)) as H.
  destruct (store_levels (level_writes l1 l2 l3) (tank_levels s)) as [[|e] tl];
    simpl in H.
  - destruct (insert_result env) as [|e]; [exact H|].
    destruct e; simpl; exact H.
  - destruct (is_modbus_error e); exact H.
Qed.

Lemma poll_cycle_map (env : cycle_env) (last : Z) (s : state) :
  map f (tank_levels (snd (poll_cycle env last s))) = map f (tank_levels s).
Proof.
  destruct (ping_ok env) eqn:Hping.
  - destruct (poll_cycle_reachable env last s Hping) as (pre & post & Hs & _).
    rewrite Hs. simpl. apply (fetch_map env (extend pre s)).
  - destruct (poll_cycle_unreachable env last s Hping) as (pre & Hs).
    rewrite Hs. reflexivity.
Qed.

Lemma step_map (w : system) (a : action) :
  map f (tank_levels (app (step w a))) = map f (tank_levels (app w)).
Proof.
  destruct a as [env|env|d]; [rewrite step_iterate | simpl | simpl].
  - destruct (thread w) as [last| |]; try reflexivity.
    destruct (running (app w)); [|reflexivity].
    exact (poll_cycle_map env last (app w)).
  - rewrite cleanup_extend.
    destruct (negb (cleaned_up (app w)) && authorised env); reflexivity.
  - unfold save. destruct d as [d|]; [destruct (d <? MIN_POLL_INTERVAL)|];
      reflexivity.
Qed.

Lemma run_map (sched : list action) (w : system) :
  map f (tank_levels (app (run sched w))) = map f (tank_levels (app w)).
Proof.
  revert w. induction sched as [|a sched IH]; intros w; simpl.
  - reflexivity.
  - rewrite IH. apply step_map.
Qed.

End Preserved.

Lemma init_fields (env : init_env) (s : state) :
  init env = Ok s ->
  running s = true /\ cleaned_up s = false /\ last_update s = None /\
  poll_interval s = DEFAULT_POLL_INTERVAL /\ client s = client_built env /\
  tank_levels s = initial_tank_levels /\
  occurrences SocketClose (trace s) = 0%nat /\
  occurrences RootDestroy (trace s) = 0%nat.
Proof.
  unfold init, init_database.
  destruct (existing_db env) as [rows|]; [destruct (remove_result env)|];
    (destruct (setup_result env); [|discriminate]);
    intros H; inversion H; subst; clear H; simpl;
    destruct (client_built env); repeat split.
Qed.

Lemma start_polling_app (t0 : Z) (s : state) :
  exists evs, app (start_polling t0 s) = extend evs s /\ forallb is_log evs = true.
Proof.
  unfold start_polling. destruct (client s); simpl.
  - exists []. split; [symmetry; apply extend_nil | reflexivity].
  - eexists. split; [apply emit_extend | reflexivity].
Qed.

(** X11.  From start-up on, whatever the cycles, shutdown attempts and
    settings changes, the tank set stays the one of [CAPACITIES]: six
    tanks with the same ids, capacities and heights, only levels change.
    Drawing the bars therefore never misses a colour: each bar is gray
    when the data is stale and has the colour of its tank otherwise. *)
Theorem tank_set_is_fixed :
  forall (env : init_env) (s0 : state) (t0 : Z) (sched : list action) (now : Z),
    init env = Ok s0 ->
    let s := app (run sched (start_polling t0 s0)) in
    same_tanks (tank_levels s) /\
    List.length (tank_levels s) = 6%nat /\
    map snd (bar_fills s now) =
      if is_stale s now then repeat (Some "gray"%string) 6
      else map Some [ "#32CD32"; "#FFA500"; "#FFFF00"; "#FFFF00";
                      "#FFA500"; "#FFA500" ]%string.
Proof.
  intros env s0 t0 sched now Hinit. cbv zeta.
  destruct (init_fields env s0 Hinit) as (_ & _ & _ & _ & _ & Htl & _).
  destruct (start_polling_app t0 s0) as (evs & Happ & _).
  assert (Hmap : forall (A : Type) (f : tank -> A),
             (forall v t, f (with_level v t) = f t) ->
             map f (tank_levels (app (run sched (start_polling t0 s0))))
             = map f initial_tank_levels).
  { intros A f Hf. rewrite (run_map A f Hf), Happ. simpl. rewrite Htl. reflexivity. }
  assert (Hid := Hmap _ id (fun _ _ => eq_refl)).
  split; [|split].
  - repeat split; apply Hmap; reflexivity.
  - rewrite <- (length_map id), Hid. reflexivity.
  - unfold bar_fills. rewrite map_map. simpl snd.
    set (s := app (run sched (start_polling t0 s0))) in *.
    transitivity (map (fun i => if is_stale s now then Some "gray"%string
                                else lookup i fill_colors) (map id (tank_levels s))).
    { rewrite map_map. reflexivity. }
    rewrite Hid. destruct (is_stale s now); reflexivity.
Qed.

Lemma tank_set_is_fixed_witness :
  init first_start = Ok started /\
  List.length
    (tank_levels
       (app (run [Iterate (good_cycle 60000000 [32768; 10000; 5000]);
                  Save (Some 5000000); Cleanup at_exit]
               (start_polling 0 started)))) = 6%nat.
Proof.
  split; [reflexivity|].
  exact (proj1 (proj2 (tank_set_is_fixed first_start started 0
                         [Iterate (good_cycle 60000000 [32768; 10000; 5000]);
                          Save (Some 5000000); Cleanup at_exit] 0 eq_refl))).
Defined.

Lemma save_extend (d : option Z) (s : state) :
  save d s =
  match d with
  | Some v =>
      if v <? MIN_POLL_INTERVAL
      then extend [ShowError; Log ERROR "Invalid input"] s
      else set_poll_interval v s
  | None => extend [ShowError; Log ERROR "Invalid input"] s
  end.
Proof.
  unfold save, log. destruct d as [v|]; [destruct (v <? MIN_POLL_INTERVAL)|];
    rewrite ?emit_extend, ?extend_extend; reflexivity.
Qed.

Lemma step_poll_interval (w : system) (a : action) :
  MIN_POLL_INTERVAL <= poll_interval (app w) ->
  MIN_POLL_INTERVAL <= poll_interval (app (step w a)).
Proof.
  intros H. destruct a as [env|env|d]; [rewrite step_iterate | simpl | simpl].
  - destruct (thread w) as [last| |]; try exact H.
    destruct (running (app w)); [|exact H].
    destruct (poll_cycle_frame env last (app w)) as (_ & _ & Hp & _).
    simpl. rewrite Hp. exact H.
  - rewrite cleanup_extend.
    destruct (negb (cleaned_up (app w)) && authorised env); exact H.
  - rewrite save_extend. destruct d as [v|]; [|exact H].
    destruct (v <? MIN_POLL_INTERVAL) eqn:E; [exact H|].
    simpl. apply Z.ltb_ge. exact E.
Qed.

(** X12.  The test of line 129, [poll_interval < MIN_POLL_INTERVAL],
    never holds of the interval in force: start-up clamps it, the settings
    dialog stores a number only after that test has failed on it, and
    nothing else writes it.  That test is all there is: every number at or
    above the minimum is stored, however large. *)
Theorem poll_interval_never_below_minimum :
  forall (env : init_env) (s0 : state) (t0 : Z) (sched : list action),
    init env = Ok s0 ->
    (poll_interval (app (run sched (start_polling t0 s0))) <? MIN_POLL_INTERVAL) = false /\
    (forall (d : Z) (s : state),
        MIN_POLL_INTERVAL <= d -> save (Some d) s = set_poll_interval d s).
Proof.
  intros env s0 t0 sched Hinit. split.
  - apply Z.ltb_ge.
    apply (run_invariant (fun w => MIN_POLL_INTERVAL <= poll_interval (app w))).
    + exact step_poll_interval.
    + destruct (init_fields env s0 Hinit) as (_ & _ & _ & Hp & _).
      destruct (start_polling_app t0 s0) as (evs & Happ & _).
      rewrite Happ. simpl. rewrite Hp.
      unfold MIN_POLL_INTERVAL, DEFAULT_POLL_INTERVAL. lia.
  - intros d s Hd. unfold save. rewrite (proj2 (Z.ltb_ge _ _) Hd). reflexivity.
Qed.

Lemma poll_interval_never_below_minimum_witness :
  init first_start = Ok started /\
  (poll_interval (app (run [Save (Some 5); Save None; Save (Some oversized_interval);
                            Iterate (good_cycle 0 [1; 2; 3])]
                         (start_polling 0 started))) <? MIN_POLL_INTERVAL) = false.
Proof.
  split; [reflexivity|].
  exact (proj1 (poll_interval_never_below_minimum first_start started 0
                  [Save (Some 5); Save None; Save (Some oversized_interval);
                   Iterate (good_cycle 0 [1; 2; 3])] eq_refl)).
Defined.

Lemma step_flags (w : system) (a : action) :
  running (app w) = negb (cleaned_up (app w)) ->
  running (app (step w a)) = negb (cleaned_up (app (step w a))).
Proof.
  intros H. destruct a as [env|env|d]; [rewrite step_iterate | simpl | simpl].
  - destruct (thread w) as [last| |]; try exact H.
    destruct (running (app w)) eqn:R; [|simpl; rewrite R; exact H].
    destruct (poll_cycle_frame env last (app w)) as (Hr & Hc & _).
    simpl. rewrite Hr, Hc, R. exact H.
  - rewrite cleanup_extend.
    destruct (cleaned_up (app w)) eqn:C; simpl; [rewrite C; exact H|].
    destruct (authorised env); simpl; [reflexivity | rewrite C; exact H].
  - rewrite save_extend. destruct d as [v|]; [destruct (v <? MIN_POLL_INTERVAL)|];
      exact H.
Qed.

(** X13.  From start-up on, [running] is set exactly as long as
    [cleaned_up] is not: the two flags change together, in the teardown
    and nowhere else. *)
Theorem running_iff_not_cleaned_up :
  forall (env : init_env) (s0 : state) (t0 : Z) (sched : list action),
    init env = Ok s0 ->
    let s := app (run sched (start_polling t0 s0)) in
    running s = negb (cleaned_up s).
Proof.
  intros env s0 t0 sched Hinit. cbv zeta.
  apply (run_invariant (fun w => running (app w) = negb (cleaned_up (app w)))).
  - exact step_flags.
  - destruct (init_fields env s0 Hinit) as (Hr & Hc & _).
    destruct (start_polling_app t0 s0) as (evs & Happ & _).
    rewrite Happ. simpl. rewrite Hr, Hc. reflexivity.
Qed.

Lemma running_iff_not_cleaned_up_witness :
  init first_start = Ok started /\
  running (app (run [Cleanup (typed (Some "54321"%string)); Cleanup at_exit]
                  (start_polling 0 started))) = false.
Proof.
  split; [reflexivity|].
  rewrite (running_iff_not_cleaned_up first_start started 0
             [Cleanup (typed (Some "54321"%string)); Cleanup at_exit] eq_refl).
  reflexivity.
Defined.

(** ** After the loop *)

Lemma step_quiet (w : system) (a : action) :
  quiet w ->
  quiet (step w a) /\
  iterations (step w a) = iterations w /\
  tank_levels (app (step w a)) = tank_levels (app w) /\
  last_update (app (step w a)) = last_update (app w) /\
  db (app (step w a)) = db (app w).
Proof.
  unfold quiet. intros Q. destruct a as [env|env|d]; [rewrite step_iterate | simpl | simpl].
  - destruct (thread w) as [last| |] eqn:T.
    + destruct Q as [Q|Q]; [contradiction (Q last); reflexivity|]. rewrite Q.
      simpl. repeat split. left. discriminate.
    + repeat split. left. rewrite T. discriminate.
    + repeat split. left. rewrite T. discriminate.
  - rewrite cleanup_extend.
    destruct (negb (cleaned_up (app w)) && authorised env); simpl;
      repeat split; destruct Q as [Q|Q]; auto.
  - rewrite save_extend.
    destruct d as [v|]; [destruct (v <? MIN_POLL_INTERVAL)|]; simpl;
      repeat split; exact Q.
Qed.

Lemma run_quiet (sched : list action) (w : system) :
  quiet w ->
  quiet (run sched w) /\
  iterations (run sched w) = iterations w /\
  tank_levels (app (run sched w)) = tank_levels (app w) /\
  last_update (app (run sched w)) = last_update (app w) /\
  db (app (run sched w)) = db (app w).
Proof.
  revert w. induction sched as [|a sched IH]; intros w Q; simpl.
  - repeat split. exact Q.
  - destruct (step_quiet w a Q) as (Q' & Hi & Hl & Hu & Hd).
    destruct (IH (step w a) Q') as (Q'' & Hi' & Hl' & Hu' & Hd').
    rewrite Hi', Hl', Hu', Hd'. repeat split; assumption.
Qed.

Lemma step_cleaned_up (w : system) (a : action) :
  cleaned_up (app w) = true -> cleaned_up (app (step w a)) = true.
Proof.
  intros H. destruct a as [env|env|d]; [rewrite step_iterate | simpl | simpl].
  - destruct (thread w) as [last| |]; try exact H.
    destruct (running (app w)); [|exact H].
    destruct (poll_cycle_frame env last (app w)) as (_ & Hc & _).
    simpl. rewrite Hc. exact H.
  - apply (cleanup_frame env (app w)). exact H.
  - rewrite (proj1 (proj2 (proj2 (save_frame d (app w))))). exact H.
Qed.

(** X14.  Shutdown is final for the loop test.  Once a call of
    [cleanup] has gone through, whatever is scheduled afterwards, no
    iteration of the polling loop begins any more, [running] stays cleared
    and [cleaned_up] stays set.  (An iteration that had passed the test of
    line 608 before [running] was cleared is one begun before.) *)
Theorem nothing_polls_after_shutdown :
  forall (env : cleanup_env) (sched : list action) (w : system),
    cleaned_up (app w) = false ->
    authorised env = true ->
    let w' := run (Cleanup env :: sched) w in
    iterations w' = iterations w /\
    running (app w') = false /\
    cleaned_up (app w') = true.
Proof.
  intros env sched w Hc Ha. cbv zeta. simpl.
  set (w1 := {| thread := thread w; iterations := iterations w;
                app := cleanup env (app w) |}).
  assert (Hrun : running (app w1) = false).
  { subst w1. simpl. rewrite cleanup_extend, Hc, Ha. reflexivity. }
  assert (Hcl : cleaned_up (app w1) = true).
  { subst w1. simpl. rewrite cleanup_extend, Hc, Ha. reflexivity. }
  assert (Hfinal : running (app (run sched w1)) = false).
  { destruct (running (app (run sched w1))) eqn:R; [|reflexivity].
    apply run_running in R. rewrite Hrun in R. discriminate R. }
  destruct (run_quiet sched w1 (or_intror Hrun)) as (_ & Hi & _).
  split; [exact Hi|]. split; [exact Hfinal|].
  exact (run_invariant (fun w0 => cleaned_up (app w0) = true) step_cleaned_up
           sched w1 Hcl).
Qed.

Lemma nothing_polls_after_shutdown_witness :
  cleaned_up started = false /\
  authorised (typed (Some "12345"%string)) = true /\
  iterations (run [Cleanup (typed (Some "12345"%string));
                   Iterate (good_cycle 60000000 [32768; 10000; 5000])]
                (start_polling 0 started)) = 0%nat.
Proof.
  do 2 (split; [reflexivity|]).
  exact (proj1 (nothing_polls_after_shutdown (typed (Some "12345"%string))
                  [Iterate (good_cycle 60000000 [32768; 10000; 5000])]
                  (start_polling 0 started) eq_refl eq_refl)).
Defined.

(** X15.  When the protocol client could not be built, no polling
    thread is started: whatever is scheduled, no iteration runs, the six
    levels stay at zero, no row is written, and the data is never
    classified stale. *)
Theorem no_client_no_polling :
  forall (env : init_env) (s0 : state) (t0 : Z) (sched : list action) (now : Z),
    init env = Ok s0 ->
    client_built env = false ->
    let w := run sched (start_polling t0 s0) in
    iterations w = 0%nat /\
    map level (tank_levels (app w)) = repeat 0%float 6 /\
    db (app w) = db s0 /\
    is_stale (app w) now = false.
Proof.
  intros env s0 t0 sched now Hinit Hcl. cbv zeta.
  destruct (init_fields env s0 Hinit) as (_ & _ & Hlu & _ & Hc & Htl & _).
  assert (Hq : quiet (start_polling t0 s0)).
  { left. unfold start_polling. rewrite Hc, Hcl. discriminate. }
  destruct (run_quiet sched _ Hq) as (_ & Hi & Hl & Hu & Hd).
  destruct (start_polling_app t0 s0) as (evs & Happ & _).
  unfold is_stale. rewrite Hi, Hl, Hu, Hd, Happ. simpl.
  rewrite Htl, Hlu. repeat split.
  unfold start_polling. destruct (client s0); reflexivity.
Qed.

Lemma no_client_no_polling_witness :
  exists s0,
    init no_client_start = Ok s0 /\
    client_built no_client_start = false /\
    iterations (run [Iterate (good_cycle 60000000 [32768; 10000; 5000])]
                  (start_polling 0 s0)) = 0%nat.
Proof.
  eexists. split; [reflexivity|]. split; [reflexivity|].
  exact (proj1 (no_client_no_polling no_client_start _ 0
                  [Iterate (good_cycle 60000000 [32768; 10000; 5000])] 0
                  eq_refl eq_refl)).
Defined.

(** ** Resources over a whole run *)

Lemma trace_events_since (s s' : state) :
  (exists evs, trace s' = trace s ++ evs) ->
  trace s' = trace s ++ events_since s s'.
Proof.
  intros (evs & H). rewrite (events_since_app s s' evs H). exact H.
Qed.

Lemma cycle_has_no_teardown_event (e : event) (env : cycle_env) (last : Z) (s : state) :
  e = SocketClose \/ e = RootDestroy ->
  occurrences e (events_since s (snd (poll_cycle env last s))) = 0%nat.
Proof.
  intros He. rewrite poll_cycle_events, occurrences_app.
  unfold throttle_events, closing_events, rescue_events, ping_events.
  destruct (t_start env - last <? MIN_POLL_INTERVAL);
    (destruct (ping_ok env);
     [rewrite occurrences_app;
      destruct (fetch_events_fails env s) as [[_ ->]|[_ [msg ->]]];
      (destruct (running s); [destruct (after_result env) as [[]|x]|]);
      destruct (poll_interval s <? t_end env - t_start env)
     | destruct (ping_result env) as [rc|x]; [destruct (rc =? 0) | destruct x]]);
    destruct (sleep_raises (poll_interval s));
    destruct He as [-> | ->]; reflexivity.
Qed.

Lemma step_teardown_count (w : system) (a : action) :
  let released (s : state) := if cleaned_up s then 1%nat else 0%nat in
  (occurrences RootDestroy (trace (app w)) = released (app w) /\
   (occurrences SocketClose (trace (app w)) <= released (app w))%nat) ->
  occurrences RootDestroy (trace (app (step w a))) = released (app (step w a)) /\
  (occurrences SocketClose (trace (app (step w a))) <= released (app (step w a)))%nat.
Proof.
  cbv zeta. intros (Hd & Hs).
  destruct a as [env|env|d]; [rewrite step_iterate | simpl | simpl].
  - destruct (thread w) as [last| |]; try (split; assumption).
    destruct (running (app w)); [|split; assumption].
    destruct (poll_cycle_frame env last (app w)) as (_ & Hc & _ & _ & Ht).
    pose proof (cycle_has_no_teardown_event RootDestroy env last (app w)
                  (or_intror eq_refl)) as H1.
    pose proof (cycle_has_no_teardown_event SocketClose env last (app w)
                  (or_introl eq_refl)) as H2.
    apply trace_events_since in Ht. simpl.
    rewrite Ht, !occurrences_app, H1, H2, Hc, !Nat.add_0_r. split; assumption.
  - rewrite cleanup_extend. unfold cleanup_events, teardown_events.
    destruct (cleaned_up (app w)) eqn:C; simpl.
    + rewrite C, app_nil_r. split; assumption.
    + destruct (authorised env); simpl; rewrite ?C, !occurrences_app.
      * rewrite Hd. simpl in Hs. apply Nat.le_0_r in Hs. rewrite Hs.
        destruct (root_alive env);
          (destruct (time_date_after_id (app w)); [destruct (after_cancel_ok env)|]);
          destruct (client (app w) && socket_open_at_exit env);
          destruct (destroy_ok env); simpl; split; try reflexivity;
          unfold occurrences; simpl; lia.
      * rewrite Hd. simpl in Hs. apply Nat.le_0_r in Hs. rewrite Hs.
        destruct (root_alive env); destruct (exit_code env);
          simpl; split; reflexivity.
  - rewrite save_extend.
    destruct d as [v|]; [destruct (v <? MIN_POLL_INTERVAL)|]; simpl;
      rewrite ?occurrences_app; simpl; rewrite ?Nat.add_0_r; split; assumption.
Qed.

(** X16.  Over a whole run, however often [cleanup] is called and from
    whichever trigger, the window is destroyed exactly once if the state
    ends up cleaned and not at all otherwise, and the socket is closed at
    most once, and only in a run that ends up cleaned. *)
Theorem resources_released_at_most_once :
  forall (env : init_env) (s0 : state) (t0 : Z) (sched : list action),
    init env = Ok s0 ->
    let s := app (run sched (start_polling t0 s0)) in
    occurrences RootDestroy (trace s) = (if cleaned_up s then 1%nat else 0%nat) /\
    (occurrences SocketClose (trace s) <= (if cleaned_up s then 1 else 0))%nat.
Proof.
  intros env s0 t0 sched Hinit. cbv zeta.
  apply (run_invariant
           (fun w =>
              occurrences RootDestroy (trace (app w))
                = (if cleaned_up (app w) then 1%nat else 0%nat) /\
              (occurrences SocketClose (trace (app w))
                 <= (if cleaned_up (app w) then 1 else 0))%nat)).
  - intros w a H. exact (step_teardown_count w a H).
  - destruct (init_fields env s0 Hinit) as (_ & Hc & _ & _ & _ & _ & Hs & Hd).
    unfold start_polling. destruct (client s0); simpl.
    + rewrite Hc, Hs, Hd. split; [reflexivity | lia].
    + rewrite Hc, !occurrences_app, Hs, Hd.
      split; [reflexivity | unfold occurrences; simpl; lia].
Qed.

Lemma resources_released_at_most_once_witness :
  init first_start = Ok started /\
  occurrences RootDestroy
    (trace (app (run [Cleanup at_exit; Cleanup (typed (Some "12345"%string));
                      Cleanup at_exit]
                   (start_polling 0 started)))) = 1%nat.
Proof.
  split; [reflexivity|].
  exact (proj1 (resources_released_at_most_once first_start started 0
                  [Cleanup at_exit; Cleanup (typed (Some "12345"%string));
                   Cleanup at_exit] eq_refl)).
Defined.

(** ** Settings and the next iteration *)



(** ** The loop while the interval can be slept *)






(** ** Rows of the log *)

Lemma read_levels_inv (regs : list Z) (l1 l2 l3 : float) :
  read_levels regs = Ok (l1, l2, l3) ->
  exists r0 r1 r2 rest,
    regs = r0 :: r1 :: r2 :: rest /\
    l1 = raw_level r0 (gallons cap_big_tank) /\
    l2 = raw_level r1 (gallons cap_tank1_bio) /\
    l3 = raw_level r2 (gallons cap_tank2_fleet).
Proof.
  destruct regs as [|r0 [|r1 [|r2 rest]]]; simpl; try discriminate.
  intros H. inversion H. exists r0, r1, r2, rest. repeat split.
Qed.

Lemma fetch_db (env : cycle_env) (s : state) :
  db (fetch_tank_levels env s) = db s \/
  exists r0 r1 r2,
    db (fetch_tank_levels env s) = db s ++ [persisted_row (now_log env) r0 r1 r2].
Proof.
  unfold fetch_tank_levels, fetch_try, log_to_database.
  destruct (if socket_open env then Ok true else connect_result env) as [[|]|e];
    [destruct (read_result env) as [[|regs]|e];
     [| destruct (read_levels regs) as [[[l1 l2] l3]|e] eqn:Hrl |] | |];
    try (destruct (is_modbus_error e); left; reflexivity); try (left; reflexivity).
  destruct (read_levels_inv regs l1 l2 l3 Hrl) as (r0 & r1 & r2 & rest & _ & -> & -> & ->).
  destruct (store_levels _ (tank_levels s)) as [[|e] tl].
  - destruct (insert_result env) as [|e].
    + right. exists r0, r1, r2. reflexivity.
    + destruct e; left; reflexivity.
  - destruct (is_modbus_error e); left; reflexivity.
Qed.

Lemma poll_cycle_db (env : cycle_env) (last : Z) (s : state) :
  db (snd (poll_cycle env last s)) = db s \/
  exists r0 r1 r2,
    db (snd (poll_cycle env last s)) = db s ++ [persisted_row (now_log env) r0 r1 r2].
Proof.
  destruct (ping_ok env) eqn:Hping.
  - destruct (poll_cycle_reachable env last s Hping) as (pre & post & Hs & _).
    rewrite Hs. exact (fetch_db env (extend pre s)).
  - destruct (poll_cycle_unreachable env last s Hping) as (pre & Hs).
    rewrite Hs. left. reflexivity.
Qed.

Lemma step_rows (w : system) (a : action) :
  exists rows,
    db (app (step w a)) = db (app w) ++ rows /\
    (iterations w + List.length rows <= iterations (step w a))%nat /\
    Forall (fun row => exists t r0 r1 r2, row = persisted_row t r0 r1 r2) rows.
Proof.
  assert (Hnone : forall w' : system,
             db (app w') = db (app w) -> iterations w' = iterations w ->
             exists rows,
               db (app w') = db (app w) ++ rows /\
               (iterations w + List.length rows <= iterations w')%nat /\
               Forall (fun row => exists t r0 r1 r2, row = persisted_row t r0 r1 r2)
                      rows).
  { intros w' Hd Hi. exists []. rewrite app_nil_r, Hi. simpl.
    repeat split; [exact Hd | lia | constructor]. }
  destruct a as [env|env|d].
  - rewrite step_iterate.
    destruct (thread w) as [last| |]; try (apply Hnone; reflexivity).
    destruct (running (app w)); [|apply Hnone; reflexivity].
    pose proof (poll_cycle_db env last (app w)) as H. simpl.
    destruct H as [H|(r0 & r1 & r2 & H)].
    + exists []. rewrite app_nil_r. simpl. repeat split; [exact H | lia | constructor].
    + exists [persisted_row (now_log env) r0 r1 r2]. simpl.
      repeat split; [exact H | lia |].
      constructor; [|constructor]. exists (now_log env), r0, r1, r2. reflexivity.
  - apply Hnone; simpl; [|reflexivity]. rewrite cleanup_extend.
    destruct (negb (cleaned_up (app w)) && authorised env); reflexivity.
  - apply Hnone; simpl; [|reflexivity]. rewrite save_extend.
    destruct d as [v|]; [destruct (v <? MIN_POLL_INTERVAL)|]; reflexivity.
Qed.

(** X18.  Over any run the log gains at most one row per iteration of
    the polling loop, and every row gained holds the three un-rounded
    levels computed from registers; [cleanup] and the settings dialog add
    none. *)
Theorem at_most_one_row_per_iteration :
  forall (sched : list action) (w : system),
  exists rows,
    db (app (run sched w)) = db (app w) ++ rows /\
    (iterations w + List.length rows <= iterations (run sched w))%nat /\
    Forall (fun row => exists t r0 r1 r2, row = persisted_row t r0 r1 r2) rows.
Proof.
  intros sched. induction sched as [|a sched IH]; intros w; simpl.
  - exists []. rewrite app_nil_r. simpl. repeat split; [lia | constructor].
  - destruct (step_rows w a) as (rows1 & Hd1 & Hi1 & Hf1).
    destruct (IH (step w a)) as (rows2 & Hd2 & Hi2 & Hf2).
    exists (rows1 ++ rows2). rewrite Hd2, Hd1, app_assoc, length_app.
    repeat split; [lia | apply Forall_app; split; assumption].
Qed.

(** ** The configuration file *)

Lemma dict_get_set_same (k : string) (v : json) (d : list (string * json)) :
  dict_get k (dict_set k v d) = Some v.
Proof.
  induction d as [|[k' v'] rest IH]; simpl.
  - rewrite String.eqb_refl. reflexivity.
  - destruct (String.eqb k k') eqn:E; simpl; rewrite E; [reflexivity | exact IH].
Qed.

Lemma dict_get_set_other (k k' : string) (v : json) (d : list (string * json)) :
  k' <> k ->
  dict_get k' (dict_set k v d) = dict_get k' d.
Proof.
  intros Hne. induction d as [|[k0 v0] rest IH]; simpl.
  - destruct (String.eqb k' k) eqn:E; [|reflexivity].
    apply String.eqb_eq in E. contradiction.
  - destruct (String.eqb k k0) eqn:E; simpl.
    + apply String.eqb_eq in E. subst k0.
      destruct (String.eqb k' k) eqn:E'; [|reflexivity].
      apply String.eqb_eq in E'. contradiction.
    + rewrite IH. reflexivity.
Qed.

Lemma dict_set_keys (k : string) (v : json) (d : list (string * json)) :
  dict_get k d <> None ->
  map fst (dict_set k v d) = map fst d.
Proof.
  induction d as [|[k0 v0] rest IH]; simpl; intros H.
  - contradiction H. reflexivity.
  - destruct (String.eqb k k0) eqn:E; simpl; [reflexivity|].
    rewrite (IH H). reflexivity.
Qed.

(** X19.  Whatever [config.json] holds, and however the file
    operations go, the configuration [load_config] returns has a
    [poll_interval] equal to the default: an interval stored in the file is
    never used. *)
Theorem loaded_interval_is_the_default :
  forall (io : config_io) (f : config_file),
    is_default_interval (dict_get "poll_interval" (loaded (load_config io f))) = true.
Proof.
  assert (H : forall io f,
             is_default_interval
               (dict_get "poll_interval" (loaded (load_existing io f))) = true).
  { intros io f. unfold load_existing, loaded.
    destruct (open_ok io); [|reflexivity].
    destruct f as [| | |d]; try reflexivity.
    destruct (is_default_interval (dict_get "poll_interval" d)) eqn:E;
      [exact E|].
    destruct (dict_get "poll_interval" d); [|reflexivity].
    destruct (rewrite_ok io); simpl; rewrite dict_get_set_same; reflexivity. }
  intros io f. unfold load_config.
  destruct f as [| | |d]; try apply H.
  destruct (create_ok io); [apply H | reflexivity].
Qed.

(** X20.  When the file holds an object with a [poll_interval] key and
    can be read, every other key comes back with the value the file has,
    in the same order; only [poll_interval] may differ.  If the corrected
    file could be written, the file afterwards holds exactly what was
    returned. *)
Theorem load_config_keeps_the_other_keys :
  forall (io : config_io) (d : list (string * json)),
    open_ok io = true ->
    dict_get "poll_interval" d <> None ->
    let r := load_config io (Holds d) in
    map fst (loaded r) = map fst d /\
    (forall k, k <> "poll_interval"%string ->
               dict_get k (loaded r) = dict_get k d) /\
    (rewrite_ok io = true -> file_after r = Holds (loaded r) /\ logged r = []).
Proof.
  intros io d Hopen Hkey. cbv zeta.
  unfold load_config, load_existing, loaded, file_after, logged.
  rewrite Hopen.
  destruct (is_default_interval (dict_get "poll_interval" d)).
  - simpl. repeat split.
  - destruct (dict_get "poll_interval" d) as [v|] eqn:E;
      [|contradiction Hkey; reflexivity].
    destruct (rewrite_ok io); simpl;
      (split; [apply dict_set_keys; rewrite E; discriminate|]);
      (split; [intros k Hk; apply dict_get_set_other; exact Hk|]);
      intros H; [split; reflexivity | discriminate H].
Qed.

Lemma load_config_keeps_the_other_keys_witness :
  open_ok all_ok = true /\
  loaded (load_config all_ok five_seconds) =
    [ ("adam_ip", JString "10.0.0.7");
      ("poll_interval", JInt default_interval_seconds);
      ("unit_id", JInt 3) ]%string /\
  file_after (load_config all_ok five_seconds)
    = Holds (loaded (load_config all_ok five_seconds)).
Proof.
  split; [reflexivity|]. split; [reflexivity|].
  assert (Hkey : dict_get "poll_interval"
                   [ ("adam_ip", JString "10.0.0.7"); ("poll_interval", JInt 5);
                     ("unit_id", JInt 3) ]%string <> None) by discriminate.
  destruct (load_config_keeps_the_other_keys all_ok _ eq_refl Hkey) as (_ & _ & H).
  exact (proj1 (H eq_refl)).
Defined.

(** X21.  A file that cannot be opened, is not JSON, is not an object,
    or is an object without a [poll_interval] key is ignored as a whole:
    the defaults are returned, host address included, the file is left as
    it is and one error is logged. *)
Theorem unusable_config_falls_back_to_defaults :
  forall (io : config_io) (f : config_file),
    f <> Missing ->
    (open_ok io = false \/ f = Garbled \/ f = NotAnObject \/
     exists d, f = Holds d /\ dict_get "poll_interval" d = None) ->
    let r := load_config io f in
    loaded r = default_config /\
    file_after r = f /\
    logged r = [Log ERROR "Failed to load config"].
Proof.
  intros io f Hf H. cbv zeta.
  unfold load_config, load_existing, loaded, file_after, logged.
  destruct (open_ok io).
  - destruct H as [H|[->|[->|(d & -> & Hd)]]];
      [discriminate H | repeat split .. |].
    rewrite Hd. simpl. repeat split.
  - destruct f; [contradiction Hf; reflexivity | repeat split ..].
Qed.

Lemma unusable_config_falls_back_to_defaults_witness :
  no_interval_key <> Missing /\
  loaded (load_config all_ok no_interval_key) = default_config /\
  file_after (load_config all_ok no_interval_key) = no_interval_key.
Proof.
  assert (Hf : no_interval_key <> Missing) by discriminate.
  split; [exact Hf|].
  destruct (unusable_config_falls_back_to_defaults all_ok no_interval_key Hf
              (or_intror (or_intror (or_intror
                 (ex_intro _ _ (conj eq_refl eq_refl))))))
    as (Hl & Hfile & _).
  split; assumption.
Defined.

(** X22.  When its file operations succeed, loading is idempotent:
    loading again from the file the first call left gives the same
    configuration and leaves the same file. *)
Theorem load_config_is_idempotent :
  forall (io : config_io) (f : config_file),
    create_ok io = true -> open_ok io = true -> rewrite_ok io = true ->
    let r1 := load_config io f in
    let r2 := load_config io (file_after r1) in
    loaded r2 = loaded r1 /\ file_after r2 = file_after r1.
Proof.
  intros io f Hc Ho Hr. cbv zeta.
  unfold load_config, load_existing, loaded, file_after.
  rewrite Hc, Ho, Hr.
  destruct f as [| | |d]; simpl; try (split; reflexivity).
  destruct (is_default_interval (dict_get "poll_interval" d)) eqn:E; simpl.
  - rewrite E. split; reflexivity.
  - destruct (dict_get "poll_interval" d) as [v|] eqn:K; simpl.
    + rewrite dict_get_set_same. simpl. split; reflexivity.
    + rewrite K. simpl. split; reflexivity.
Qed.

Lemma load_config_is_idempotent_witness :
  create_ok all_ok = true /\ open_ok all_ok = true /\ rewrite_ok all_ok = true /\
  loaded (load_config all_ok (file_after (load_config all_ok five_seconds)))
    = loaded (load_config all_ok five_seconds).
Proof.
  do 3 (split; [reflexivity|]).
  exact (proj1 (load_config_is_idempotent all_ok five_seconds eq_refl eq_refl eq_refl)).
Defined.

(** ** Drawing *)

Lemma ltb_leb (x y : float) : (x <? y)%float = true -> (x <=? y)%float = true.
Proof.
  rewrite FloatAxioms.ltb_spec, FloatAxioms.leb_spec. unfold SFltb, SFleb.
  destruct (SFcompare (Prim2SF x) (Prim2SF y)) as [[| |]|]; auto.
Qed.

Lemma SFcompare_refl (v : spec_float) :
  v <> S754_nan -> SFcompare v v = Some Eq.
Proof.
  destruct v as [s|s| |s m e]; simpl; intros H.
  - reflexivity.
  - destruct s; reflexivity.
  - contradiction H. reflexivity.
  - rewrite Z.compare_refl, Pos.compare_cont_refl. destruct s; reflexivity.
Qed.

Lemma SFcompare_some (u v : spec_float) (c : comparison) :
  SFcompare u v = Some c -> u <> S754_nan /\ v <> S754_nan.
Proof.
  destruct u, v; simpl; intros H; try discriminate H; split; discriminate.
Qed.

Lemma SFcompare_antisym (u v : spec_float) :
  SFcompare v u = option_map CompOpp (SFcompare u v).
Proof.
  destruct u as [s|s| |s m e], v as [s'|s'| |s' m' e']; simpl;
    try reflexivity; try (destruct s; reflexivity);
    try (destruct s'; reflexivity); try (destruct s, s'; reflexivity).
  destruct s, s'; try reflexivity; rewrite (Z.compare_antisym e e');
    destruct (e ?= e'); simpl; try reflexivity;
    rewrite (Pos.compare_cont_antisym m m' Eq); reflexivity.
Qed.

Lemma leb_refl_of (x y : float) :
  (x <=? y)%float = true -> (x <=? x)%float = true /\ (y <=? y)%float = true.
Proof.
  rewrite !FloatAxioms.leb_spec. unfold SFleb.
  destruct (SFcompare (Prim2SF x) (Prim2SF y)) as [c|] eqn:E; [|discriminate].
  intros _. destruct (SFcompare_some _ _ _ E) as (Hx & Hy).
  rewrite (SFcompare_refl _ Hx), (SFcompare_refl _ Hy). split; reflexivity.
Qed.

Lemma leb_total (x y : float) :
  (x <=? x)%float = true -> (y <=? y)%float = true ->
  (y <? x)%float = false -> (x <=? y)%float = true.
Proof.
  rewrite !FloatAxioms.leb_spec, FloatAxioms.ltb_spec. unfold SFleb, SFltb.
  destruct (SFcompare (Prim2SF x) (Prim2SF x)) as [cx|] eqn:Ex; [|discriminate].
  destruct (SFcompare (Prim2SF y) (Prim2SF y)) as [cy|] eqn:Ey; [|discriminate].
  intros _ _. rewrite (SFcompare_antisym (Prim2SF x) (Prim2SF y)).
  destruct (SFcompare (Prim2SF x) (Prim2SF y)) as [[| |]|] eqn:E; simpl; auto.
  destruct (SFcompare_some _ _ _ Ex) as (Hx & _).
  destruct (SFcompare_some _ _ _ Ey) as (Hy & _).
  destruct (Prim2SF x), (Prim2SF y); simpl in E; try discriminate E;
    try (contradiction Hx; reflexivity); contradiction Hy; reflexivity.
Qed.

Lemma clamp_between (lo hi y : float) :
  (lo <=? hi)%float = true ->
  between lo hi (py_max lo (py_min hi y)) = true.
Proof.
  intros H. destruct (leb_refl_of lo hi H) as (Hlo & Hhi).
  unfold between, py_max, py_min.
  destruct (y <? hi)%float eqn:Eh.
  - destruct (lo <? y)%float eqn:El.
    + rewrite (ltb_leb _ _ El), (ltb_leb _ _ Eh). reflexivity.
    + rewrite Hlo, H. reflexivity.
  - destruct (lo <? hi)%float eqn:El.
    + rewrite H, Hhi. reflexivity.
    + rewrite Hlo, H. reflexivity.
Qed.

(** X23.  Every mark of the height scale is drawn between 5 pixels
    from the top and 5 pixels from the bottom of the canvas, whatever the
    tank height: a mark that would fall outside, or whose position is not a
    number, is moved to the nearer bound. *)
Theorem scale_marks_stay_inside_the_canvas :
  forall (tank_height : float) (canvas_height : Z) (ds : list drawing),
    (5 <=? Z2float (canvas_height - 5))%float = true ->
    add_scale tank_height canvas_height = Ok ds ->
    Forall (fun d => forallb (between 5 (Z2float (canvas_height - 5))) (ys d) = true) ds.
Proof.
  intros h H ds Hb. unfold add_scale.
  destruct (h =? 0)%float; [discriminate|].
  destruct (py_int h) as [n|e]; [|discriminate].
  intros E. inversion E; subst ds; clear E.
  apply Forall_flat_map, Forall_forall. intros ft _.
  unfold tick.
  set (y := py_max 5 (py_min (Z2float (H - 5)) _)).
  assert (Hy : between 5 (Z2float (H - 5)) y = true)
    by (apply clamp_between; exact Hb).
  destruct (ft mod 5 =? 0); repeat constructor; simpl; rewrite Hy; reflexivity.
Qed.

Lemma scale_marks_stay_inside_the_canvas_witness :
  (5 <=? Z2float (350 - 5))%float = true /\
  exists ds,
    add_scale (height cap_big_tank) 350 = Ok ds /\
    Forall (fun d => forallb (between 5 (Z2float (350 - 5))) (ys d) = true) ds.
Proof.
  split; [reflexivity|].
  destruct (add_scale (height cap_big_tank) 350) as [ds|e] eqn:E;
    [|vm_compute in E; discriminate E].
  exists ds. split; [reflexivity|].
  exact (scale_marks_stay_inside_the_canvas (height cap_big_tank) 350 ds eq_refl E).
Defined.

Lemma in_py_range (k n : Z) : In k (py_range n) <-> 0 <= k < n.
Proof.
  unfold py_range. rewrite in_map_iff. split.
  - intros (i & <- & Hi). apply in_seq in Hi. lia.
  - intros Hk. exists (Z.to_nat k). split; [lia|]. apply in_seq. lia.
Qed.

Lemma ticks_lines (H : Z) (ppf : float) (l : list Z) :
  List.length (filter is_line (flat_map (tick H ppf) l)) = List.length l.
Proof.
  induction l as [|ft l IH]; simpl; [reflexivity|].
  rewrite filter_app, length_app, IH. unfold tick.
  destruct (ft mod 5 =? 0); reflexivity.
Qed.

Lemma ticks_labels (H : Z) (ppf : float) (l : list Z) (k : Z) :
  In (Some k) (map label_of (flat_map (tick H ppf) l)) <-> In k l /\ k mod 5 = 0.
Proof.
  induction l as [|ft l IH]; simpl.
  - tauto.
  - rewrite map_app, in_app_iff, IH. unfold tick.
    destruct (ft mod 5 =? 0) eqn:E; simpl.
    + apply Z.eqb_eq in E. split.
      * intros [[H0|[H0|[]]]|[H1 H2]]; try discriminate H0.
        -- inversion H0; subst. tauto.
        -- tauto.
      * intros [[->|Hin] Hm]; [left; right; left; reflexivity | right; tauto].
    + apply Z.eqb_neq in E. split.
      * intros [[H0|[]]|[H1 H2]]; [discriminate H0 | tauto].
      * intros [[->|Hin] Hm]; [contradiction | right; tauto].
Qed.

(** X24.  For a tank height that is a non-zero number, [add_scale]
    draws one line for each whole foot from 0 up to the height rounded
    toward zero, and labels exactly the marks at multiples of 5 feet; for a
    negative height it draws nothing. *)
Theorem scale_has_one_mark_per_foot :
  forall (tank_height : float) (canvas_height n : Z),
    (tank_height =? 0)%float = false ->
    py_int tank_height = Ok n ->
    exists ds,
      add_scale tank_height canvas_height = Ok ds /\
      List.length (filter is_line ds) = Z.to_nat (n + 1) /\
      (forall k, In (Some k) (map label_of ds) <-> 0 <= k <= n /\ k mod 5 = 0) /\
      (n < 0 -> ds = []).
Proof.
  intros h H n Hz Hn. unfold add_scale. rewrite Hz, Hn.
  eexists. split; [reflexivity|]. split; [|split].
  - rewrite ticks_lines. unfold py_range. rewrite length_map, length_seq. reflexivity.
  - intros k. rewrite ticks_labels, in_py_range. split; intros [H1 H2]; split; lia.
  - intros Hneg. unfold py_range.
    replace (Z.to_nat (n + 1)) with 0%nat by lia. reflexivity.
Qed.

Lemma scale_has_one_mark_per_foot_witness :
  (height cap_big_tank =? 0)%float = false /\
  py_int (height cap_big_tank) = Ok 52 /\
  exists ds,
    add_scale (height cap_big_tank) 350 = Ok ds /\
    List.length (filter is_line ds) = 53%nat.
Proof.
  split; [reflexivity|]. split; [reflexivity|].
  destruct (scale_has_one_mark_per_foot (height cap_big_tank) 350 52 eq_refl eq_refl)
    as (ds & Hds & Hlen & _).
  exists ds. split; [exact Hds | exact Hlen].
Defined.

(** X25.  The fill percentage handed to the canvas lies between 0 and
    100 whenever the level ratio times 100 is a number: a level above
    capacity fills the bar entirely and a negative one leaves it empty. *)
Theorem fill_percent_is_clamped :
  forall percent_full : float,
    is_nan (percent_full * 100)%float = false ->
    between 0 100 (fill_percent percent_full) = true.
Proof.
  intros p Hnan. unfold fill_percent, py_min, py_max, between.
  set (x := (p * 100)%float) in *.
  assert (Hx : (x <=? x)%float = true).
  { unfold is_nan in Hnan. apply negb_false_iff in Hnan.
    rewrite FloatAxioms.leb_spec. rewrite FloatAxioms.eqb_spec in Hnan.
    unfold SFleb, SFeqb in *.
    destruct (SFcompare (Prim2SF x) (Prim2SF x)) as [[| |]|]; try discriminate.
    reflexivity. }
  destruct (x <? 0)%float eqn:E0.
  - reflexivity.
  - assert (H0 : (0 <=? x)%float = true)
      by (apply leb_total; [reflexivity | exact Hx | exact E0]).
    destruct (100 <? x)%float eqn:E1.
    + reflexivity.
    + rewrite H0. simpl.
      apply leb_total; [exact Hx | reflexivity | exact E1].
Qed.

Lemma fill_percent_is_clamped_witness :
  is_nan ((3 / 2) * 100)%float = false /\
  fill_percent (3 / 2) = 100%float /\
  between 0 100 (fill_percent (3 / 2)) = true.
Proof.
  split; [reflexivity|]. split; [reflexivity|].
  exact (fill_percent_is_clamped (3 / 2)%float eq_refl).
Defined.
